(** * A shallow embedding of the uhooapi client library

    The library has three parts: the transport helper [API] (one HTTP
    request, status mapping to the error taxonomy), the device record
    [Device] (metadata and averaged sensor readings) and the session
    object [Client] (login, device discovery, per-device refresh with one
    re-login retry).  The package sources are not part of this tree, only
    its tests; every operation below is therefore modelled from the
    specification, checked against what the tests assert.

    Python data is modelled as follows: a decoded JSON value is [jvalue],
    a Python dict decoded from a JSON object is its list of items (keys
    distinct, as in a dict), numbers are exact rationals [Q], the
    [devices] dict is a [gmap string Device], and the client is a state
    monad over the client object plus the log of outbound requests, with
    the server replies given by an oracle indexed by request number.

    The release script [scripts/bump_version.py], the one program file of
    the tree, is embedded from its source in module [Bump]. *)

From Stdlib Require Import QArith Qround Lqa ZArith String Ascii Bool List Lia.
From Stdlib Require Import DecimalN DecimalPos.
From stdpp Require Import base gmap strings list.
Import ListNotations.
Open Scope string_scope.
#[local] Set Warnings "-register-all".

(** ** JSON values *)

Inductive jvalue : Type :=
| JNull
| JBool (b : bool)
| JInt (z : Z)
| JNum (q : Q)
| JStr (s : string)
| JArr (xs : list jvalue)
| JObj (kv : list (string * jvalue)).

(** A Python dict decoded from a JSON object. *)
Abbreviation dict := (list (string * jvalue)).

(** [d.get(k)]: [None] when the key is absent. *)
Fixpoint dict_get (k : string) (d : dict) : option jvalue :=
  match d with
  | [] => None
  | (k', v) :: d' => if String.eqb k k' then Some v else dict_get k d'
  end.

(** The numeric value of a JSON scalar as Python's [sum] sees it
    ([bool] is a subclass of [int]); [None] is the [TypeError] case. *)
Definition num_of (v : jvalue) : option Q :=
  match v with
  | JInt z => Some (inject_Z z)
  | JNum q => Some q
  | JBool b => Some (if b then 1%Q else 0%Q)
  | _ => None
  end.

(** Python truthiness of a decoded JSON value. *)
Definition py_truthy (v : jvalue) : bool :=
  match v with
  | JNull => false
  | JBool b => b
  | JInt z => negb (Z.eqb z 0)
  | JNum q => negb (Qeq_bool q 0)
  | JStr s => negb (String.eqb s "")
  | JArr xs => negb (Nat.eqb (length xs) 0)
  | JObj kv => negb (Nat.eqb (length kv) 0)
  end.

(** ** Errors raised by the library *)

Inductive error : Type :=
| UnauthorizedError (detail : string)
| ForbiddenError (detail : string)
| RequestError (msg : string)
| KeyError (key : string)
| UnboundLocalError (name : string)
| TypeError (msg : string).

Definition is_auth_error (e : error) : bool :=
  match e with
  | UnauthorizedError _ | ForbiddenError _ => true
  | _ => false
  end.

(** ** The device record *)

Module Device.

(** [Device.SENSOR_FIELDS], the camelCase keys of a data sample. *)
Definition SENSOR_FIELDS : list string :=
  ["virusIndex"; "moldIndex"; "temperature"; "humidity"; "pm25"; "tvoc";
   "co2"; "co"; "airPressure"; "ozone"; "no2"; "pm1"; "pm4"; "pm10";
   "ch2o"; "light"; "sound"; "h2s"; "no"; "so2"; "nh3"; "oxygen"].

Definition is_upper (c : ascii) : bool :=
  (65 <=? nat_of_ascii c)%nat && (nat_of_ascii c <=? 90)%nat.

Definition to_lower (c : ascii) : ascii := ascii_of_nat (nat_of_ascii c + 32).

(** [_to_attr_name]: camelCase to snake_case ("airPressure" becomes
    "air_pressure"). *)
Fixpoint _to_attr_name (s : string) : string :=
  match s with
  | EmptyString => EmptyString
  | String c s' =>
      if is_upper c then String "_" (String (to_lower c) (_to_attr_name s'))
      else String c (_to_attr_name s')
  end.

Record Device : Type := mkDevice {
  device_name : string;
  mac_address : string;
  serial_number : string;
  floor_number : Z;
  room_name : string;
  timezone : string;
  utc_offset : string;
  ssid : string;
  (** the sensor attributes, by snake_case attribute name *)
  attrs : string -> Q;
  timestamp : jvalue
}.

(** [getattr] / [setattr] on a sensor attribute. *)
Definition getattr (d : Device) (a : string) : Q := attrs d a.

Definition setattr (d : Device) (a : string) (v : Q) : Device :=
  {| device_name := device_name d; mac_address := mac_address d;
     serial_number := serial_number d; floor_number := floor_number d;
     room_name := room_name d; timezone := timezone d;
     utc_offset := utc_offset d; ssid := ssid d;
     attrs := fun a' => if String.eqb a' a then v else attrs d a';
     timestamp := timestamp d |}.

Definition set_timestamp (d : Device) (t : jvalue) : Device :=
  {| device_name := device_name d; mac_address := mac_address d;
     serial_number := serial_number d; floor_number := floor_number d;
     room_name := room_name d; timezone := timezone d;
     utc_offset := utc_offset d; ssid := ssid d;
     attrs := attrs d; timestamp := t |}.

(** [data.get(k, "")] for a string field and [data.get(k, 0)] for the
    floor number; the endpoint sends these keys with string and integer
    values. *)
Definition get_str (k : string) (data : dict) : string :=
  match dict_get k data with Some (JStr s) => s | _ => "" end.

Definition get_int (k : string) (data : dict) : Z :=
  match dict_get k data with Some (JInt z) => z | _ => 0%Z end.

(** [update_device(data)]: every metadata field is read back from the
    payload with its default. *)
Definition update_device (d : Device) (data : dict) : Device :=
  {| device_name := get_str "deviceName" data;
     mac_address := get_str "macAddress" data;
     serial_number := get_str "serialNumber" data;
     floor_number := get_int "floorNumber" data;
     room_name := get_str "roomName" data;
     timezone := get_str "timezone" data;
     utc_offset := get_str "utcOffset" data;
     ssid := get_str "ssid" data;
     attrs := attrs d; timestamp := timestamp d |}.

(** The attributes set in [__init__] before [update_device] runs. *)
Definition blank : Device :=
  {| device_name := ""; mac_address := ""; serial_number := "";
     floor_number := 0%Z; room_name := ""; timezone := "";
     utc_offset := ""; ssid := ""; attrs := fun _ => 0%Q;
     timestamp := JInt (-1) |}.

(** [Device(data)]. *)
Definition init (data : dict) : Device := update_device blank data.

(** [round(x, 1)]: the nearest multiple of 1/10, ties to the even
    multiple. *)
Definition py_round1 (x : Q) : Q :=
  let y := (x * 10)%Q in
  let k := Qfloor y in
  let r := (y - inject_Z k)%Q in
  let k' :=
    if Qlt_le_dec r (1 # 2) then k
    else if Qlt_le_dec (1 # 2) r then (k + 1)%Z
    else if Z.even k then k else (k + 1)%Z in
  Qmake k' 10.

(** [sum(values)], left to right from 0; [None] on a non-number. *)
Fixpoint py_sum (acc : Q) (vs : list jvalue) : option Q :=
  match vs with
  | [] => Some acc
  | v :: vs' =>
      match num_of v with
      | Some q => py_sum (acc + q)%Q vs'
      | None => None
      end
  end.

(** [dp.get(field, 0.0)]. *)
Definition get_or_zero (field : string) (dp : dict) : jvalue :=
  match dict_get field dp with Some v => v | None => JNum 0%Q end.

(** [sum(values) / len(values)] for one field. *)
Definition field_avg (field : string) (data : list dict) : option Q :=
  let values := map (get_or_zero field) data in
  match py_sum 0%Q values with
  | Some s => Some (s / inject_Z (Z.of_nat (length values)))%Q
  | None => None
  end.

(** The loop over [SENSOR_FIELDS]; the object is mutated in place, so a
    [TypeError] part way leaves the earlier fields already written. *)
Fixpoint set_fields (fields : list string) (data : list dict) (d : Device)
    : Device * option error :=
  match fields with
  | [] => (d, None)
  | f :: fs =>
      match field_avg f data with
      | Some avg => set_fields fs data (setattr d (_to_attr_name f) (py_round1 avg))
      | None => (d, Some (TypeError "unsupported operand type(s) for +"))
      end
  end.

(** [update_data(data)]: nothing on an empty batch; otherwise every
    sensor field becomes the rounded mean, then the timestamp of the last
    sample is copied when it has one. *)
Definition update_data (d : Device) (data : list dict) : Device * option error :=
  match data with
  | [] => (d, None)
  | _ :: _ =>
      match set_fields SENSOR_FIELDS data d with
      | (d', Some e) => (d', Some e)
      | (d', None) =>
          match dict_get "timestamp" (List.last data []) with
          | Some t => (set_timestamp d' t, None)
          | None => (d', None)
          end
      end
  end.

End Device.

(** ** The transport helper *)

Module API.

Definition BASE_URL : string := "https://api.uhooinc.com/integration".

(** What the session gives back for one request: a failure while
    sending, or a response whose body may fail to read or decode
    ([None]). *)
Record http_response : Type := mkResponse {
  status : Z;
  content_type : string;
  resp_text : option string;
  resp_json : option jvalue
}.

Inductive http_outcome : Type :=
| SendFailure (cause : string)
| Response (r : http_response).

Inductive result (A : Type) : Type :=
| Ok (a : A)
| Err (e : error).
Arguments Ok {A} a.
Arguments Err {A} e.

(** The outbound request as handed to [websession.request]. *)
Record api_call : Type := mkCall {
  call_method : string;
  call_url : string;
  call_headers : list (string * string);
  call_data : option jvalue
}.

Definition headers (bearer : option string) : list (string * string) :=
  match bearer with
  | Some t => [("Authorization", "Bearer " ++ t)]
  | None => []
  end.

Definition request_failed (what : string) : error :=
  RequestError ("Error requesting data: " ++ what).

(** [_request] once the session has answered: the status mapping, then
    the JSON or text body. *)
Definition request_result (out : http_outcome) : result jvalue :=
  match out with
  | SendFailure cause => Err (request_failed cause)
  | Response r =>
      if (400 <=? status r)%Z then
        if (status r =? 401)%Z then
          match resp_text r with
          | Some t => Err (UnauthorizedError t)
          | None => Err (request_failed "body")
          end
        else if (status r =? 403)%Z then
          match resp_text r with
          | Some t => Err (ForbiddenError t)
          | None => Err (request_failed "body")
          end
        else Err (request_failed "HTTP error")
      else if String.eqb (content_type r) "application/json" then
        match resp_json r with
        | Some v => Ok v
        | None => Err (request_failed "body")
        end
      else
        match resp_text r with
        | Some t => Ok (JStr t)
        | None => Err (request_failed "body")
        end
  end.

Definition url (base path : string) : string := base ++ "/" ++ path.

Definition make_call (bearer : option string) (method base path : string)
    (data : option jvalue) : api_call :=
  {| call_method := method; call_url := url base path;
     call_headers := headers bearer; call_data := data |}.

End API.

Import API.

(** ** The session object *)

Module Client.

Record Client : Type := mkClient {
  api_key : string;
  access_token : option string;
  refresh_token : option string;
  (** the bearer-token slot of the owned [API] helper *)
  bearer_token : option string;
  devices : gmap string Device.Device;
  mode : string;
  limit : Z
}.

(** [Client(api_key, websession)]. *)
Definition new (key : string) : Client :=
  {| api_key := key; access_token := None; refresh_token := None;
     bearer_token := None; devices := ∅; mode := "minute"; limit := 5%Z |}.

Definition set_tokens (c : Client) (a r : option string) : Client :=
  {| api_key := api_key c; access_token := a; refresh_token := r;
     bearer_token := a; devices := devices c; mode := mode c; limit := limit c |}.

Definition set_devices (c : Client) (m : gmap string Device.Device) : Client :=
  {| api_key := api_key c; access_token := access_token c;
     refresh_token := refresh_token c; bearer_token := bearer_token c;
     devices := m; mode := mode c; limit := limit c |}.

(** The client object together with the requests sent so far. *)
Record St : Type := mkSt { client : Client; log : list api_call }.

Definition M (A : Type) : Type := St -> result A * St.

#[global] Instance M_ret : MRet M := fun A a s => (Ok a, s).
#[global] Instance M_bind : MBind M := fun A B f m s =>
  match m s with
  | (Ok a, s') => f a s'
  | (Err e, s') => (Err e, s')
  end.

Definition throw {A} (e : error) : M A := fun s => (Err e, s).

(** [try: m except e: h(e)]. *)
Definition catch {A} (m : M A) (h : error -> M A) : M A := fun s =>
  match m s with
  | (Err e, s') => h e s'
  | r => r
  end.

Definition get : M Client := fun s => (Ok (client s), s).

Definition modify (f : Client -> Client) : M unit := fun s =>
  (Ok tt, {| client := f (client s); log := log s |}).

Section Session.

(** The server: the outcome of the [n]-th request of the run. *)
Variable net : nat -> http_outcome.

(** One [API._request]: the request goes out with the current bearer
    token, the reply is the oracle's answer for its position. *)
Definition api_request (path : string) (data : option jvalue) : M jvalue := fun s =>
  (request_result (net (length (log s))),
   {| client := client s;
      log := log s ++ [make_call (bearer_token (client s)) "post" BASE_URL path data] |}).

Definition generate_token (code : string) : M jvalue :=
  api_request "generatetoken" (Some (JObj [("code", JStr code)])).

Definition get_device_list : M jvalue := api_request "getdeviceslist" None.

Definition get_device_data (serial : string) (md : string) (lim : Z) : M jvalue :=
  api_request "getdata"
    (Some (JObj [("serialNumber", JStr serial); ("mode", JStr md); ("limit", JInt lim)])).

(** The access token of a token response, when it has a usable one. *)
Definition access_of (token : jvalue) : option string :=
  match token with
  | JObj kv =>
      match dict_get "access_token" kv with
      | Some (JStr t) => if String.eqb t "" then None else Some t
      | _ => None
      end
  | _ => None
  end.

Definition refresh_of (token : jvalue) : option string :=
  match token with
  | JObj kv =>
      match dict_get "refresh_token" kv with
      | Some (JStr t) => Some t
      | _ => None
      end
  | _ => None
  end.

(** [login()]. *)
Definition login : M unit :=
  c ← get;
  token ← generate_token (api_key c);
  match access_of token with
  | Some t => modify (fun c => set_tokens c (Some t) (refresh_of token))
  | None => modify (fun c => set_tokens c None None)
  end.

(** The retry shared by the endpoint calls: on [UnauthorizedError] or
    [ForbiddenError], log in again and repeat the call once. *)
Definition with_reauth (call : M jvalue) : M jvalue :=
  catch call (fun e => if is_auth_error e then login ;; call else throw e).

Definition add_device (x : jvalue) : M unit :=
  match x with
  | JObj kv =>
      let dev := Device.init kv in
      modify (fun c =>
        match devices c !! Device.serial_number dev with
        | Some _ => c
        | None => set_devices c (<[Device.serial_number dev := dev]> (devices c))
        end)
  | _ => throw (TypeError "device entry is not an object")
  end.

Fixpoint add_devices (xs : list jvalue) : M unit :=
  match xs with
  | [] => mret tt
  | x :: xs' => add_device x ;; add_devices xs'
  end.

(** [setup_devices()]. *)
Definition setup_devices : M unit :=
  data ← with_reauth get_device_list;
  modify (fun c => set_devices c ∅) ;;
  match data with
  | JNull => mret tt
  | JArr xs => add_devices xs
  | _ => throw (TypeError "device list is not a list")
  end.

Fixpoint samples_of (xs : list jvalue) : M (list dict) :=
  match xs with
  | [] => mret []
  | JObj kv :: xs' => rest ← samples_of xs'; mret (kv :: rest)
  | _ :: _ => throw (TypeError "sample is not an object")
  end.

Definition as_samples (v : jvalue) : M (list dict) :=
  match v with
  | JArr xs => samples_of xs
  | _ => throw (TypeError "data is not a list")
  end.

(** [get_latest_data(serial_number)]: [data] is bound only when the
    reply is not [None]. *)
Definition get_latest_data (serial : string) : M unit :=
  c ← get;
  match devices c !! serial with
  | None => throw (KeyError serial)
  | Some device_obj =>
      data_latest ← with_reauth (get_device_data serial (mode c) (limit c));
      data ← (match data_latest with
              | JNull => mret None
              | JObj kv =>
                  match dict_get "data" kv with
                  | Some v => mret (Some v)
                  | None => throw (KeyError "data")
                  end
              | _ => throw (TypeError "reply is not an object")
              end : M (option jvalue));
      match data with
      | None => throw (UnboundLocalError "data")
      | Some d =>
          samples ← as_samples d;
          let '(dev', err) := Device.update_data device_obj samples in
          modify (fun c => set_devices c (<[serial := dev']> (devices c))) ;;
          match err with
          | Some e => throw e
          | None => mret tt
          end
      end
  end.

End Session.

(** [m] sends no request. *)
Definition no_calls {A} (m : M A) : Prop := forall s, log (snd (m s)) = log s.

End Client.

(** ** Readings of the specification used in the statements below *)

Module Spec.

(** The number a sample contributes for a field: its value, or 0 when the
    sample does not have the field. *)
Definition value_or_zero (f : string) (dp : dict) : option Q :=
  match dict_get f dp with
  | None => Some 0%Q
  | Some v => num_of v
  end.

(** The values of one field across the batch, when they are all numbers. *)
Fixpoint field_values (f : string) (data : list dict) : option (list Q) :=
  match data with
  | [] => Some []
  | dp :: data' =>
      match value_or_zero f dp, field_values f data' with
      | Some x, Some xs => Some (x :: xs)
      | _, _ => None
      end
  end.

Definition Qsum (xs : list Q) : Q := fold_right Qplus 0%Q xs.

(** The arithmetic mean. *)
Definition mean (xs : list Q) : Q := (Qsum xs / inject_Z (Z.of_nat (length xs)))%Q.

(** [r] is [x] rounded to one decimal place, half to even: [r] is [k]
    tenths for an integer [k] at distance at most one half from [10 x],
    and [k] is even when [10 x] lies exactly half way. *)
Definition round_half_even_1 (x r : Q) : Prop :=
  exists k : Z,
    (r * 10 == inject_Z k)%Q /\
    (x * 10 - (1 # 2) <= inject_Z k)%Q /\ (inject_Z k <= x * 10 + (1 # 2))%Q /\
    (((inject_Z k - x * 10 == 1 # 2) \/ (x * 10 - inject_Z k == 1 # 2))%Q ->
     Z.even k = true).

(** The string metadata fields of a device record with the payload key
    each one is read from. *)
Definition string_fields : list (string * (Device.Device -> string)) :=
  [("deviceName", Device.device_name); ("macAddress", Device.mac_address);
   ("serialNumber", Device.serial_number); ("roomName", Device.room_name);
   ("timezone", Device.timezone); ("utcOffset", Device.utc_offset);
   ("ssid", Device.ssid)].

(** The endpoint URL of a path segment. *)
Definition endpoint (path : string) : string := API.url API.BASE_URL path.

(** The re-login policy of an endpoint call made at position [n] of the
    run, given the outcome of each request: a non-authorization failure
    of the call is the result; an authorization failure is followed by
    one token request and, if that succeeds, one more call whose failure
    is the result.  [delta] are the requests the operation sent. *)
Definition retry_once {A : Type} (outcome : nat -> API.result jvalue) (path : string)
    (n : nat) (r : API.result A) (delta : list API.api_call) : Prop :=
  match outcome n with
  | API.Ok _ => map API.call_url delta = [endpoint path]
  | API.Err e =>
      if is_auth_error e then
        match outcome (S n) with
        | API.Err e' =>
            r = API.Err e' /\
            map API.call_url delta = [endpoint path; endpoint "generatetoken"]
        | API.Ok _ =>
            map API.call_url delta = [endpoint path; endpoint "generatetoken"; endpoint path] /\
            (forall e2, outcome (S (S n)) = API.Err e2 -> r = API.Err e2)
        end
      else r = API.Err e /\ map API.call_url delta = [endpoint path]
  end.

End Spec.

(** * The release script [scripts/bump_version.py]

    The one program file of the tree.  Text is a byte string of ASCII
    characters ([string]); the working tree is the record [World] (the
    three files the script reads or writes, [None] for a missing file,
    the stdout of each [git] command it may run, today's date, the lines
    printed and the commands run, in order).  A run ends in [Ret v]
    (return value), [Exit n] ([sys.exit(n)]) or [Raise e] (an uncaught
    exception). *)

Module Bump.

Definition nl_char : ascii := ascii_of_nat 10.
Definition nl : string := String nl_char EmptyString.
Definition quote : ascii := ascii_of_nat 34.
Definition dot : ascii := ascii_of_nat 46.

(** ** The two patterns [version = "([\d.]+)"] and [__version__ = "[\d.]+"]

    Each is a fixed head, ending in the opening quote, then a greedy run
    of [[\d.]], then the closing quote.  The quote is not in the class, so
    the greedy run never backtracks: a match is the head, the longest
    run (at least one character) and a quote right after it. *)

Definition lit_pyproject : string := "version = " ++ String quote EmptyString.
Definition lit_init : string := "__version__ = " ++ String quote EmptyString.

Definition is_digit (c : ascii) : bool :=
  Nat.leb 48 (nat_of_ascii c) && Nat.leb (nat_of_ascii c) 57.
Definition is_digit_or_dot (c : ascii) : bool := is_digit c || Ascii.eqb c dot.

Fixpoint strip_prefix (p x : string) : option string :=
  match p, x with
  | EmptyString, _ => Some x
  | String c p', String d x' => if Ascii.eqb c d then strip_prefix p' x' else None
  | String _ _, EmptyString => None
  end.

Fixpoint take_run (x : string) : string * string :=
  match x with
  | String c x' =>
      if is_digit_or_dot c then let (r, t) := take_run x' in (String c r, t)
      else (EmptyString, x)
  | EmptyString => (EmptyString, EmptyString)
  end.

(** A match at the start of [x]: the group and the text after the match. *)
Definition match_at (lit x : string) : option (string * string) :=
  match strip_prefix lit x with
  | None => None
  | Some y =>
      let (run, rest) := take_run y in
      match run, rest with
      | String _ _, String q rest' => if Ascii.eqb q quote then Some (run, rest') else None
      | _, _ => None
      end
  end.

(** [re.search(pattern, x).group(1)]: the leftmost match. *)
Fixpoint search (lit x : string) : option string :=
  match match_at lit x with
  | Some (run, _) => Some run
  | None => match x with EmptyString => None | String _ x' => search lit x' end
  end.

(** The groups of the successive non-overlapping matches, left to right,
    as [re.sub] and [re.findall] scan them; the fuel is the length. *)
Fixpoint findall_fuel (lit : string) (n : nat) (x : string) : list string :=
  match n with
  | O => []
  | S n' =>
      match match_at lit x with
      | Some (run, rest) => run :: findall_fuel lit n' rest
      | None => match x with EmptyString => [] | String _ x' => findall_fuel lit n' x' end
      end
  end.
Definition findall (lit x : string) : list string := findall_fuel lit (String.length x) x.

(** [re.sub(pattern, r, x)]: every match replaced by [r].  The
    replacements of the script contain no backslash, so [r] is used
    verbatim. *)
Fixpoint sub_fuel (lit r : string) (n : nat) (x : string) : string :=
  match n with
  | O => x
  | S n' =>
      match match_at lit x with
      | Some (_, rest) => r ++ sub_fuel lit r n' rest
      | None => match x with EmptyString => EmptyString | String c x' => String c (sub_fuel lit r n' x') end
      end
  end.
Definition sub (lit r x : string) : string := sub_fuel lit r (String.length x) x.

(** [f'version = "{new_version}"'] and [f'__version__ = "{new_version}"']. *)
Definition repl (lit v : string) : string := lit ++ v ++ String quote EmptyString.

(** [p in x] for strings. *)
Fixpoint contains (p x : string) : bool :=
  match strip_prefix p x with
  | Some _ => true
  | None => match x with EmptyString => false | String _ x' => contains p x' end
  end.

(** ** String helpers: [str.split(sep)], [sep.join], [str.strip()] *)

Fixpoint py_split (sep : ascii) (x : string) : list string :=
  match x with
  | EmptyString => [EmptyString]
  | String c x' =>
      let parts := py_split sep x' in
      if Ascii.eqb c sep then EmptyString :: parts
      else match parts with
           | p :: ps => String c p :: ps
           | [] => [String c EmptyString]
           end
  end.

Fixpoint join (sep : string) (xs : list string) : string :=
  match xs with
  | [] => EmptyString
  | x :: xs' => match xs' with [] => x | _ => x ++ sep ++ join sep xs' end
  end.

(** The ASCII characters [str.isspace] accepts: tab to carriage return,
    the four separators 28 to 31, and space. *)
Definition is_space (c : ascii) : bool :=
  (Nat.leb 9 (nat_of_ascii c) && Nat.leb (nat_of_ascii c) 13) ||
  (Nat.leb 28 (nat_of_ascii c) && Nat.leb (nat_of_ascii c) 32).

Fixpoint lstrip (s : string) : string :=
  match s with
  | String c s' => if is_space c then lstrip s' else s
  | EmptyString => EmptyString
  end.

Fixpoint rstrip (s : string) : string :=
  match s with
  | EmptyString => EmptyString
  | String c s' =>
      let r := rstrip s' in
      if is_space c && String.eqb r EmptyString then EmptyString else String c r
  end.

Definition py_strip (s : string) : string := rstrip (lstrip s).

(** ** Version numbers: [int(...)] on a digit string and [f"{n}"] *)

Fixpoint string_of_uint (u : Decimal.uint) : string :=
  match u with
  | Decimal.Nil => EmptyString
  | Decimal.D0 u => String "0" (string_of_uint u)
  | Decimal.D1 u => String "1" (string_of_uint u)
  | Decimal.D2 u => String "2" (string_of_uint u)
  | Decimal.D3 u => String "3" (string_of_uint u)
  | Decimal.D4 u => String "4" (string_of_uint u)
  | Decimal.D5 u => String "5" (string_of_uint u)
  | Decimal.D6 u => String "6" (string_of_uint u)
  | Decimal.D7 u => String "7" (string_of_uint u)
  | Decimal.D8 u => String "8" (string_of_uint u)
  | Decimal.D9 u => String "9" (string_of_uint u)
  end.

Definition digit_cons (c : ascii) (u : Decimal.uint) : option Decimal.uint :=
  if Ascii.eqb c "0" then Some (Decimal.D0 u)
  else if Ascii.eqb c "1" then Some (Decimal.D1 u)
  else if Ascii.eqb c "2" then Some (Decimal.D2 u)
  else if Ascii.eqb c "3" then Some (Decimal.D3 u)
  else if Ascii.eqb c "4" then Some (Decimal.D4 u)
  else if Ascii.eqb c "5" then Some (Decimal.D5 u)
  else if Ascii.eqb c "6" then Some (Decimal.D6 u)
  else if Ascii.eqb c "7" then Some (Decimal.D7 u)
  else if Ascii.eqb c "8" then Some (Decimal.D8 u)
  else if Ascii.eqb c "9" then Some (Decimal.D9 u)
  else None.

Fixpoint uint_of_string (s : string) : option Decimal.uint :=
  match s with
  | EmptyString => Some Decimal.Nil
  | String c s' =>
      match uint_of_string s' with
      | Some u => digit_cons c u
      | None => None
      end
  end.

(** [int(s)] on the chunks of a [[\d.]+] group, which hold ASCII digits
    only: leading zeros are accepted, the empty string is a ValueError
    ([None]). *)
Definition py_int (s : string) : option N :=
  match s with
  | EmptyString => None
  | _ => option_map N.of_uint (uint_of_string s)
  end.

Definition str_of_N (n : N) : string := string_of_uint (N.to_uint n).

(** [major, minor, patch = map(int, current_version.split("."))]: a
    ValueError ([None]) unless there are exactly three chunks and each is
    a number. *)
Definition parse_version (v : string) : option (N * N * N) :=
  match py_split dot v with
  | [a; b; c] =>
      match py_int a, py_int b, py_int c with
      | Some major, Some minor, Some patch => Some (major, minor, patch)
      | _, _, _ => None
      end
  | _ => None
  end.

(** [f"{major}.{minor}.{patch}"] *)
Definition format_version (t : N * N * N) : string :=
  let '(major, minor, patch) := t in
  str_of_N major ++ "." ++ str_of_N minor ++ "." ++ str_of_N patch.

(** The [if version_type == "major" ... elif ... else] block. *)
Definition bump_triple (version_type : string) (t : N * N * N) : N * N * N :=
  let '(major, minor, patch) := t in
  if String.eqb version_type "major" then (major + 1, 0, 0)%N
  else if String.eqb version_type "minor" then (major, minor + 1, 0)%N
  else (major, minor, patch + 1)%N.

(** ** The working tree *)

Record World : Type := {
  pyproject_toml : option string;
  init_py : option string;
  changelog_md : option string;
  git_out : list string -> string;
  today : string;
  stdout : list string;
  commands : list (list string)
}.

Definition write_pyproject (w : World) (c : string) : World :=
  {| pyproject_toml := Some c; init_py := init_py w; changelog_md := changelog_md w;
     git_out := git_out w; today := today w; stdout := stdout w; commands := commands w |}.
Definition write_init (w : World) (c : string) : World :=
  {| pyproject_toml := pyproject_toml w; init_py := Some c; changelog_md := changelog_md w;
     git_out := git_out w; today := today w; stdout := stdout w; commands := commands w |}.
Definition write_changelog (w : World) (c : string) : World :=
  {| pyproject_toml := pyproject_toml w; init_py := init_py w; changelog_md := Some c;
     git_out := git_out w; today := today w; stdout := stdout w; commands := commands w |}.
Definition print (w : World) (line : string) : World :=
  {| pyproject_toml := pyproject_toml w; init_py := init_py w; changelog_md := changelog_md w;
     git_out := git_out w; today := today w; stdout := (stdout w ++ [line])%list;
     commands := commands w |}.
Definition run (w : World) (cmd : list string) : World :=
  {| pyproject_toml := pyproject_toml w; init_py := init_py w; changelog_md := changelog_md w;
     git_out := git_out w; today := today w; stdout := stdout w;
     commands := (commands w ++ [cmd])%list |}.

Inductive exc : Type := FileNotFoundError | ValueError | IndexError.

Inductive outcome (A : Type) : Type :=
| Ret (a : A)
| Exit (code : Z)
| Raise (e : exc).
Arguments Ret {A} a.
Arguments Exit {A} code.
Arguments Raise {A} e.

(** ** [bump_version(version_type)] (lines 11-55) *)

Definition bump_version (version_type : string) (w : World) : outcome string * World :=
  match pyproject_toml w with
  | None => (Raise FileNotFoundError, w)
  | Some content =>
      match search lit_pyproject content with
      | None => (Exit 1%Z, print w "ERROR: Could not find version in pyproject.toml")
      | Some current_version =>
          match parse_version current_version with
          | None => (Raise ValueError, w)
          | Some t =>
              let new_version := format_version (bump_triple version_type t) in
              let w1 := write_pyproject w
                          (sub lit_pyproject (repl lit_pyproject new_version) content) in
              let w2 := match init_py w1 with
                        | Some init_content =>
                            if contains "__version__" init_content
                            then write_init w1
                                   (sub lit_init (repl lit_init new_version) init_content)
                            else w1
                        | None => w1
                        end in
              (Ret new_version,
               print w2 ("Bumped version from " ++ current_version ++ " to " ++ new_version))
          end
      end
  end.

(** ** [update_changelog(version, version_type)] (lines 58-105)

    [subprocess.run] without [check=True] raises no CalledProcessError,
    so the [except] branch is not modelled; the stdout of each command is
    [git_out w cmd]. *)

Definition header : string := "# Changelog".
Definition describe_cmd : list string := ["git"; "describe"; "--tags"; "--abbrev=0"].
Definition log_cmd (last_tag : string) : list string :=
  ["git"; "log"; last_tag ++ "..HEAD"; "--oneline"; "--no-merges"].

Fixpoint commit_lines (commits : list string) : string :=
  match commits with
  | [] => EmptyString
  | c :: cs => (if String.eqb c EmptyString then EmptyString else "- " ++ c ++ nl) ++ commit_lines cs
  end.

Definition changelog_entry (version today : string) (commits : list string) : string :=
  "## [" ++ version ++ "] - " ++ today ++ nl ++ nl ++
  (match commits with
   | [] => "### No changes recorded" ++ nl
   | _ => "### Changes" ++ nl ++ commit_lines commits
   end) ++ nl.

(** The [# Insert after the header] block; [lines[0]] of an empty list
    would be an IndexError. *)
Definition insert_entry (entry old : string) : outcome string :=
  let lines := py_split nl_char old in
  match lines with
  | [] => Raise IndexError
  | l0 :: _ =>
      if String.prefix header l0
      then Ret (join nl (firstn 2 lines) ++ nl ++ nl ++ entry ++ join nl (skipn 2 lines))
      else Ret (header ++ nl ++ nl ++ entry ++ old)
  end.

Definition update_changelog (version version_type : string) (w : World) : outcome unit * World :=
  let last_tag := py_strip (git_out w describe_cmd) in
  let w1 := run w describe_cmd in
  let commits := py_split nl_char (py_strip (git_out w1 (log_cmd last_tag))) in
  let w2 := run w1 (log_cmd last_tag) in
  let entry := changelog_entry version (today w2) commits in
  let old_content := match changelog_md w2 with
                     | Some c => c
                     | None => header ++ nl ++ nl
                     end in
  match insert_entry entry old_content with
  | Ret new_content => (Ret tt, print (write_changelog w2 new_content) "Updated CHANGELOG.md")
  | Exit c => (Exit c, w2)
  | Raise e => (Raise e, w2)
  end.

(** The changelog text and the commit list [update_changelog] works with. *)
Definition old_changelog (w : World) : string :=
  match changelog_md w with Some c => c | None => header ++ nl ++ nl end.

Definition commits_since_tag (w : World) : list string :=
  py_split nl_char (py_strip (git_out w (log_cmd (py_strip (git_out w describe_cmd))))).

(** ** [main()] (lines 108-124); [argv] includes the script name. *)

Definition usage : string := "Usage: python scripts/bump_version.py [major|minor|patch]".
Definition add_cmd : list string :=
  ["git"; "add"; "pyproject.toml"; "CHANGELOG.md"; "src/uhooapi/__init__.py"].
Definition commit_cmd (new_version : string) : list string :=
  ["git"; "commit"; "-m"; "Bump version to " ++ new_version].
(** The three characters U+00E2 U+0153 U+2026 the source's f-string holds,
    printed in UTF-8. *)
Definition mark : string :=
  String (ascii_of_nat 195) (String (ascii_of_nat 162) (String (ascii_of_nat 197)
  (String (ascii_of_nat 147) (String (ascii_of_nat 226) (String (ascii_of_nat 128)
  (String (ascii_of_nat 166) EmptyString)))))).

Definition main (argv : list string) (w : World) : outcome unit * World :=
  match argv with
  | [_; version_type] =>
      if existsb (String.eqb version_type) ["major"; "minor"; "patch"] then
        match bump_version version_type w with
        | (Ret new_version, w1) =>
            match update_changelog new_version version_type w1 with
            | (Ret _, w2) =>
                let w3 := run (run w2 add_cmd) (commit_cmd new_version) in
                (Ret tt, print (print w3 (nl ++ mark ++ " Version bumped to " ++ new_version))
                           "Run: git push origin main")
            | (Exit c, w2) => (Exit c, w2)
            | (Raise e, w2) => (Raise e, w2)
            end
        | (Exit c, w1) => (Exit c, w1)
        | (Raise e, w1) => (Raise e, w1)
        end
      else (Exit 1%Z, print w usage)
  | _ => (Exit 1%Z, print w usage)
  end.

(** ** Auxiliary notions for the proofs *)

Fixpoint all_chars (p : ascii -> bool) (s : string) : bool :=
  match s with EmptyString => true | String c s' => p c && all_chars p s' end.

(** [a] and [b] agree on their common length. *)
Fixpoint agree (a b : string) : bool :=
  match a, b with
  | String c a', String d b' => Ascii.eqb c d && agree a' b'
  | _, _ => true
  end.

(** No non-empty suffix of [w] is compatible with the head [lit]. *)
Fixpoint no_lit_in (lit w : string) : bool :=
  match w with
  | EmptyString => true
  | String _ w' => negb (agree lit w) && no_lit_in lit w'
  end.

(** A pattern head whose matches cannot overlap a replacement: its
    first character is neither in [[\d.]] nor the quote, and no proper
    suffix of the head is compatible with the head. *)
Definition lit_ok (lit : string) : bool :=
  match lit with
  | EmptyString => false
  | String l0 lt => no_lit_in lit lt && negb (is_digit_or_dot l0) && negb (Ascii.eqb l0 quote)
  end.

(** ** Sample trees for the witnesses *)

Definition q : string := String quote EmptyString.
Definition sample_pyproject : string :=
  "[project]" ++ nl ++ "name = " ++ q ++ "uhooapi" ++ q ++ nl ++
  lit_pyproject ++ "0.9.12" ++ q ++ nl ++ "[tool.pytest.ini_options]" ++ nl ++
  "min" ++ lit_pyproject ++ "7.0" ++ q ++ nl.
Definition sample_git (cmd : list string) : string :=
  match cmd with
  | ["git"; "describe"; _; _] => "v0.9.12" ++ nl
  | _ => "1a2b3c4 Fix token refresh" ++ nl ++ "5d6e7f8 Add device list" ++ nl
  end.
Definition sample_world : World :=
  {| pyproject_toml := Some sample_pyproject;
     init_py := Some (lit_init ++ "0.9.12" ++ q ++ nl);
     changelog_md := None; git_out := sample_git; today := "2026-10-15";
     stdout := []; commands := [] |}.
Definition sample_bumped : World := snd (bump_version "minor" sample_world).
Definition sample_released : World := snd (main ["bump_version.py"; "minor"] sample_world).
Definition unversioned_world : World :=
  {| pyproject_toml := Some ("[project]" ++ nl ++ "name = " ++ q ++ "uhooapi" ++ q ++ nl);
     init_py := None; changelog_md := None; git_out := sample_git; today := "2026-10-15";
     stdout := []; commands := [] |}.
Definition two_part_world : World :=
  {| pyproject_toml := Some (lit_pyproject ++ "1.2" ++ q ++ nl);
     init_py := None; changelog_md := None; git_out := sample_git; today := "2026-10-15";
     stdout := []; commands := [] |}.

End Bump.

(** * Properties *)

(** ** Averaging *)

Lemma num_of_get_or_zero f dp :
  num_of (Device.get_or_zero f dp) = Spec.value_or_zero f dp.
Proof. unfold Device.get_or_zero, Spec.value_or_zero. by destruct (dict_get f dp). Qed.

Lemma py_sum_field_values f data xs acc :
  Spec.field_values f data = Some xs ->
  exists s, Device.py_sum acc (map (Device.get_or_zero f) data) = Some s /\
            (s == acc + Spec.Qsum xs)%Q.
Proof.
  revert xs acc. induction data as [|dp data IH]; intros xs acc Hv; simpl in *.
  - injection Hv as <-. exists acc. split; [done|]. simpl. ring.
  - rewrite num_of_get_or_zero.
    destruct (Spec.value_or_zero f dp) as [x|] eqn:Ex; [|discriminate].
    destruct (Spec.field_values f data) as [xs'|] eqn:Exs; [|discriminate].
    injection Hv as <-.
    destruct (IH xs' (acc + x)%Q eq_refl) as (s & Hs & Heq).
    exists s. split; [done|]. rewrite Heq. simpl. ring.
Qed.

Lemma field_values_length f data xs :
  Spec.field_values f data = Some xs -> length xs = length data.
Proof.
  revert xs. induction data as [|dp data IH]; intros xs Hv; simpl in *.
  - by injection Hv as <-.
  - destruct (Spec.value_or_zero f dp); [|discriminate].
    destruct (Spec.field_values f data) as [xs'|]; [|discriminate].
    injection Hv as <-. simpl. by rewrite (IH xs').
Qed.

Lemma field_avg_mean f data xs :
  Spec.field_values f data = Some xs ->
  exists a, Device.field_avg f data = Some a /\ (a == Spec.mean xs)%Q.
Proof.
  intros Hv. destruct (py_sum_field_values f data xs 0%Q Hv) as (s & Hs & Heq).
  unfold Device.field_avg. rewrite Hs. eexists. split; [reflexivity|].
  unfold Spec.mean. rewrite length_map, (field_values_length f data xs Hv), Heq.
  rewrite Qplus_0_l. reflexivity.
Qed.

Lemma py_round1_spec x : Spec.round_half_even_1 x (Device.py_round1 x).
Proof.
  unfold Device.py_round1.
  set (y := (x * 10)%Q). set (k := Qfloor y).
  pose proof (Qfloor_le y) as Hle. pose proof (Qlt_floor y) as Hlt.
  fold k in Hle, Hlt. rewrite inject_Z_plus in Hlt.
  change (inject_Z 1) with 1%Q in Hlt.
  assert (Hmk : forall j : Z, (Qmake j 10 * 10 == inject_Z j)%Q).
  { intros j. unfold Qeq. simpl. lia. }
  destruct (Qlt_le_dec (y - inject_Z k) (1 # 2)) as [H1|H1].
  - exists k. split; [apply Hmk|]. unfold y in *.
    split; [lra|]. split; [lra|]. intros [H|H]; lra.
  - destruct (Qlt_le_dec (1 # 2) (y - inject_Z k)) as [H2|H2].
    + exists (k + 1)%Z. split; [apply Hmk|]. rewrite inject_Z_plus. change (inject_Z 1) with 1%Q. unfold y in *.
      split; [lra|]. split; [lra|]. intros [H|H]; lra.
    + destruct (Z.even k) eqn:Ek.
      * exists k. split; [apply Hmk|]. unfold y in *.
        split; [lra|]. split; [lra|]. intros _. done.
      * exists (k + 1)%Z. split; [apply Hmk|]. rewrite inject_Z_plus. change (inject_Z 1) with 1%Q. unfold y in *.
        split; [lra|]. split; [lra|]. intros _.
        rewrite Z.even_add, Ek. done.
Qed.

Lemma round_half_even_1_compat x x' r :
  (x == x')%Q -> Spec.round_half_even_1 x r -> Spec.round_half_even_1 x' r.
Proof.
  intros Hx (k & Hr & Hlo & Hhi & Htie). exists k.
  rewrite <- Hx. repeat split; try done.
Qed.

(** ** The loop over the sensor fields *)

Lemma set_fields_ok fs data d :
  (forall f, In f fs -> Device.field_avg f data <> None) ->
  exists d', Device.set_fields fs data d = (d', None).
Proof.
  revert d. induction fs as [|f fs IH]; intros d Hf; simpl.
  - by eexists.
  - destruct (Device.field_avg f data) as [a|] eqn:Ea.
    + apply IH. intros g Hg. apply Hf. by right.
    + exfalso. apply (Hf f); [by left | done].
Qed.

(** Whatever the outcome, the loop writes sensor attributes only. *)
Lemma set_fields_frame fs data d d' e :
  Device.set_fields fs data d = (d', e) ->
  Device.serial_number d' = Device.serial_number d /\
  Device.timestamp d' = Device.timestamp d.
Proof.
  revert d. induction fs as [|f fs IH]; intros d H; simpl in H.
  - by injection H as <- _.
  - destruct (Device.field_avg f data) as [a|].
    + by destruct (IH _ H) as [-> ->].
    + by injection H as <- _.
Qed.

Lemma set_fields_other fs data d d' a :
  Device.set_fields fs data d = (d', None) ->
  ~ In a (map Device._to_attr_name fs) ->
  Device.getattr d' a = Device.getattr d a.
Proof.
  revert d. induction fs as [|f fs IH]; intros d H Hna; simpl in H.
  - by injection H as <-.
  - destruct (Device.field_avg f data) as [avg|]; [|discriminate].
    rewrite (IH _ H); [|intros Hin; apply Hna; by right].
    unfold Device.getattr, Device.setattr. simpl.
    destruct (String.eqb_spec a (Device._to_attr_name f)) as [->|]; [|done].
    exfalso. apply Hna. by left.
Qed.

Lemma set_fields_value fs data d d' f avg :
  NoDup (map Device._to_attr_name fs) ->
  Device.set_fields fs data d = (d', None) ->
  In f fs -> Device.field_avg f data = Some avg ->
  Device.getattr d' (Device._to_attr_name f) = Device.py_round1 avg.
Proof.
  revert d. induction fs as [|g fs IH]; intros d Hnd H Hin Havg; simpl in H.
  - destruct Hin.
  - simpl in Hnd. apply NoDup_cons in Hnd as [Hg Hnd].
    rewrite list_elem_of_In in Hg.
    destruct (Device.field_avg g data) as [b|] eqn:Eb; [|discriminate].
    destruct Hin as [<-|Hin].
    + rewrite (set_fields_other _ _ _ _ _ H Hg).
      unfold Device.getattr, Device.setattr. simpl.
      rewrite String.eqb_refl. congruence.
    + exact (IH _ Hnd H Hin Havg).
Qed.

Lemma sensor_attr_names_NoDup :
  NoDup (map Device._to_attr_name Device.SENSOR_FIELDS).
Proof. apply (bool_decide_unpack _). vm_compute. reflexivity. Qed.

(** ** The device record *)

(** C1: on a non-empty batch whose sensor values are numbers, every known
    sensor field becomes the mean of its values across the batch (0 for a
    sample without the field, still counted), rounded to one decimal
    half to even, and the timestamp becomes the [timestamp] of the last
    sample of the batch as received (kept when that sample has none). *)
Theorem update_data_averages (d : Device.Device) (data : list dict) :
  data <> [] ->
  (forall f, In f Device.SENSOR_FIELDS -> Spec.field_values f data <> None) ->
  exists d', Device.update_data d data = (d', None) /\
    (forall f xs, In f Device.SENSOR_FIELDS -> Spec.field_values f data = Some xs ->
       Spec.round_half_even_1 (Spec.mean xs) (Device.getattr d' (Device._to_attr_name f))) /\
    Device.timestamp d' =
      match dict_get "timestamp" (List.last data []) with
      | Some t => t
      | None => Device.timestamp d
      end.
Proof.
  intros Hne Hnum.
  assert (Havg : forall f, In f Device.SENSOR_FIELDS -> Device.field_avg f data <> None).
  { intros f Hf. destruct (Spec.field_values f data) as [xs|] eqn:Exs.
    - destruct (field_avg_mean f data xs Exs) as (a & -> & _). discriminate.
    - by destruct (Hnum f Hf). }
  destruct (set_fields_ok _ data d Havg) as [d1 Hd1].
  pose proof (set_fields_frame _ _ _ _ _ Hd1) as [_ Hts].
  assert (Hval : forall f xs, In f Device.SENSOR_FIELDS -> Spec.field_values f data = Some xs ->
            Spec.round_half_even_1 (Spec.mean xs) (Device.getattr d1 (Device._to_attr_name f))).
  { intros f xs Hf Hxs. destruct (field_avg_mean f data xs Hxs) as (a & Ha & Heq).
    rewrite (set_fields_value _ _ _ _ f a sensor_attr_names_NoDup Hd1 Hf Ha).
    apply (round_half_even_1_compat a); [exact Heq | apply py_round1_spec]. }
  unfold Device.update_data. destruct data as [|dp data']; [done|].
  rewrite Hd1.
  destruct (dict_get "timestamp" (List.last (dp :: data') [])) as [t|].
  - exists (Device.set_timestamp d1 t). split; [done|]. split; [|done].
    exact Hval.
  - exists d1. split; [done|]. split; [exact Hval | exact Hts].
Qed.

Lemma update_data_averages_witness :
  [[("temperature", JNum 20); ("humidity", JNum 40)]; [("temperature", JNum 22)]] <> [] /\
  exists d', Device.update_data Device.blank
      [[("temperature", JNum 20); ("humidity", JNum 40)]; [("temperature", JNum 22)]] = (d', None).
Proof.
  split; [discriminate|].
  destruct (update_data_averages Device.blank
      [[("temperature", JNum 20); ("humidity", JNum 40)]; [("temperature", JNum 22)]])
    as (d' & Hd' & _).
  - discriminate.
  - intros f Hf. simpl in Hf.
    repeat (destruct Hf as [<-|Hf]; [vm_compute; discriminate|]). destruct Hf.
  - exists d'. exact Hd'.
Defined.

(** C3: an empty batch leaves the record, hence every sensor field and
    the timestamp, as it was. *)
Theorem update_data_empty (d : Device.Device) :
  Device.update_data d [] = (d, None).
Proof. reflexivity. Qed.

(** C8: the metadata update rewrites every metadata field from the
    payload: the payload's value when its key is there, the type's
    default (empty string, 0 for the floor number) when it is not,
    whatever the field held before. *)
Theorem update_device_overwrites (d : Device.Device) (data : dict) :
  (forall k field, In (k, field) Spec.string_fields ->
     (forall s, dict_get k data = Some (JStr s) -> field (Device.update_device d data) = s) /\
     (dict_get k data = None -> field (Device.update_device d data) = "")) /\
  (forall z, dict_get "floorNumber" data = Some (JInt z) ->
     Device.floor_number (Device.update_device d data) = z) /\
  (dict_get "floorNumber" data = None ->
     Device.floor_number (Device.update_device d data) = 0%Z).
Proof.
  unfold Device.update_device, Device.get_str, Device.get_int.
  split; [|split; intros; simpl; by match goal with H : _ = _ |- _ => rewrite H end].
  intros k field Hin. simpl in Hin.
  repeat (destruct Hin as [Hin|Hin];
          [injection Hin as <- <-; simpl; split; intros; by match goal with H : _ = _ |- _ => rewrite H end|]).
  destruct Hin.
Qed.

(** C9, as stated: no update changes the serial number.  It fails: the
    metadata update of the tests (payload without [serialNumber]) turns
    "ORIG123" into the empty string. *)
Lemma serial_number_not_immutable :
  ~ (forall (d : Device.Device) (data : dict),
       Device.serial_number (Device.update_device d data) = Device.serial_number d).
Proof.
  intros H.
  specialize (H (Device.init [("deviceName", JStr "Original"); ("serialNumber", JStr "ORIG123")])
                [("deviceName", JStr "Updated")]).
  vm_compute in H. discriminate.
Qed.

(** C9, amended: the sensor-data update never changes the serial number;
    the metadata update sets it to the payload's [serialNumber], or to
    the empty string when the payload has none. *)
Theorem serial_number_updates (d : Device.Device) (data : dict) (batch : list dict) :
  Device.serial_number (fst (Device.update_data d batch)) = Device.serial_number d /\
  (forall s, dict_get "serialNumber" data = Some (JStr s) ->
     Device.serial_number (Device.update_device d data) = s) /\
  (dict_get "serialNumber" data = None ->
     Device.serial_number (Device.update_device d data) = "").
Proof.
  split; [|unfold Device.update_device, Device.get_str; simpl;
           split; intros; by match goal with H : _ = _ |- _ => rewrite H end].
  unfold Device.update_data. destruct batch as [|dp batch']; [done|].
  destruct (Device.set_fields Device.SENSOR_FIELDS (dp :: batch') d) as [d1 e] eqn:E.
  destruct (set_fields_frame _ _ _ _ _ E) as [Hs _].
  destruct e; [done|].
  by destruct (dict_get "timestamp" _).
Qed.

(** ** Requests sent by the client *)

Import Client.

Lemma length_snoc {A} (l : list A) (x : A) : length (l ++ [x]) = S (length l).
Proof. rewrite length_app. simpl. lia. Qed.

Lemma api_request_run net path data s :
  api_request net path data s =
  (request_result (net (length (log s))),
   {| client := client s;
      log := log s ++ [make_call (bearer_token (client s)) "post" BASE_URL path data] |}).
Proof. reflexivity. Qed.

(** One token request; the tokens and the helper's bearer slot are set
    from its reply, the client is untouched when it fails. *)
Lemma login_run net s :
  login net s =
  let g := make_call (bearer_token (client s)) "post" BASE_URL "generatetoken"
             (Some (JObj [("code", JStr (api_key (client s)))])) in
  match request_result (net (length (log s))) with
  | Ok token =>
      (Ok tt,
       {| client := match access_of token with
                    | Some t => set_tokens (client s) (Some t) (refresh_of token)
                    | None => set_tokens (client s) None None
                    end;
          log := log s ++ [g] |})
  | Err e => (Err e, {| client := client s; log := log s ++ [g] |})
  end.
Proof.
  unfold login, mbind, M_bind, get, generate_token. rewrite api_request_run. simpl.
  destruct (request_result _) as [token|e]; [|reflexivity].
  destruct (access_of token); reflexivity.
Qed.

Lemma bind_no_calls {A B} (m : M A) (f : A -> M B) :
  no_calls m -> (forall x, no_calls (f x)) -> no_calls (m ≫= f).
Proof.
  intros Hm Hf s. unfold mbind, M_bind. specialize (Hm s).
  destruct (m s) as [[a|e] s'] eqn:E; simpl in *; [rewrite Hf|]; exact Hm.
Qed.

Lemma ret_no_calls {A} (a : A) : no_calls (mret a : M A).
Proof. intros s. reflexivity. Qed.

Lemma throw_no_calls {A} e : no_calls (throw e : M A).
Proof. intros s. reflexivity. Qed.

Lemma modify_no_calls f : no_calls (modify f).
Proof. intros s. reflexivity. Qed.

Create HintDb nocalls.
#[local] Hint Resolve bind_no_calls ret_no_calls throw_no_calls modify_no_calls : nocalls.

Lemma add_devices_no_calls xs : no_calls (add_devices xs).
Proof.
  induction xs as [|x xs IH]; simpl; [auto with nocalls|].
  apply bind_no_calls; [|intros; exact IH].
  destruct x; simpl; auto with nocalls.
Qed.

Lemma samples_of_no_calls xs : no_calls (samples_of xs).
Proof.
  induction xs as [|x xs IH]; simpl; [auto with nocalls|].
  destruct x; auto with nocalls.
Qed.

Lemma as_samples_no_calls v : no_calls (as_samples v).
Proof. destruct v; simpl; auto using samples_of_no_calls with nocalls. Qed.

#[local] Hint Resolve add_devices_no_calls samples_of_no_calls as_samples_no_calls : nocalls.

(** The re-login retry around an endpoint call followed by local work. *)
Lemma with_reauth_retry_run {A} net path data (k : jvalue -> M A) s r s' :
  (forall v, no_calls (k v)) ->
  (with_reauth net (api_request net path data) ≫= k) s = (r, s') ->
  exists delta, log s' = (log s ++ delta)%list /\
    Spec.retry_once (fun n => request_result (net n)) path (length (log s)) r delta.
Proof.
  intros Hk Hrun. unfold with_reauth, catch, mbind, M_bind in Hrun.
  rewrite api_request_run in Hrun. unfold Spec.retry_once.
  destruct (request_result (net (length (log s)))) as [v|e] eqn:E1.
  - pose proof (Hk v {| client := client s; log := log s ++ [make_call (bearer_token (client s)) "post" BASE_URL path data] |}) as Hl.
    rewrite Hrun in Hl. simpl in Hl.
    eexists. split; [exact Hl|]. reflexivity.
  - destruct (is_auth_error e) eqn:Ea.
    + rewrite login_run in Hrun. simpl in Hrun. rewrite length_snoc in Hrun.
      destruct (request_result (net (S (length (log s))))) as [tok|e'] eqn:E2.
      * rewrite api_request_run in Hrun. simpl in Hrun. rewrite !length_snoc in Hrun.
        destruct (request_result (net (S (S (length (log s)))))) as [v2|e2] eqn:E3.
        -- match type of Hrun with k v2 ?s1 = _ => pose proof (Hk v2 s1) as Hl end.
           rewrite Hrun in Hl. simpl in Hl.
           eexists. split; [rewrite Hl, <- !app_assoc; reflexivity|].
           split; [reflexivity|]. intros e3 He3. discriminate.
        -- injection Hrun as <- <-. simpl.
           eexists. split; [rewrite <- !app_assoc; reflexivity|].
           split; [reflexivity|]. intros e3 He3. by injection He3 as <-.
      * injection Hrun as <- <-. simpl.
        eexists. split; [rewrite <- app_assoc; reflexivity|]. split; reflexivity.
    + unfold throw in Hrun. injection Hrun as <- <-. simpl.
      eexists. split; [reflexivity|]. split; reflexivity.
Qed.

Lemma with_reauth_devices net path data s r s1 :
  with_reauth net (api_request net path data) s = (r, s1) ->
  devices (client s1) = devices (client s).
Proof.
  intros Hrun. unfold with_reauth, catch in Hrun. rewrite api_request_run in Hrun.
  destruct (request_result (net (length (log s)))) as [v|e].
  - by injection Hrun as _ <-.
  - destruct (is_auth_error e).
    + unfold mbind, M_bind in Hrun. rewrite login_run in Hrun. simpl in Hrun.
      destruct (request_result _) as [tok|e'].
      * rewrite api_request_run in Hrun. injection Hrun as _ <-. simpl.
        by destruct (access_of tok).
      * by injection Hrun as _ <-.
    + by injection Hrun as _ <-.
Qed.

Lemma add_devices_run xs s sn :
  let '(r, s') := add_devices (map JObj xs) s in
  r = Ok tt /\ log s' = log s /\
  devices (client s') !! sn =
    match devices (client s) !! sn with
    | Some x => Some x
    | None => Device.init <$> find (fun kv => String.eqb (Device.get_str "serialNumber" kv) sn) xs
    end.
Proof.
  revert s. induction xs as [|kv xs IH]; intros s; simpl.
  - split; [done|]. split; [done|]. by destruct (devices (client s) !! sn).
  - unfold mbind, M_bind, add_device, modify. simpl.
    set (key := Device.serial_number (Device.init kv)).
    change (Device.serial_number (Device.init kv)) with key.
    set (c1 := match devices (client s) !! key with
               | Some _ => client s
               | None => set_devices (client s) (<[key:=Device.init kv]> (devices (client s)))
               end).
    specialize (IH {| client := c1; log := log s |}).
    destruct (add_devices (map JObj xs) _) as [r s'].
    destruct IH as (Hr & Hl & Hd). split; [done|]. split; [done|].
    rewrite Hd. simpl. unfold c1.
    change (Device.get_str "serialNumber" kv) with key.
    destruct (String.eqb_spec key sn) as [<-|Hne].
    + destruct (devices (client s) !! key) eqn:Ek; [by rewrite Ek|].
      simpl. by rewrite lookup_insert_eq.
    + destruct (devices (client s) !! key) eqn:Ek; [done|].
      simpl. by rewrite lookup_insert_ne.
Qed.

(** ** The session operations *)

(** C2: device discovery and the data refresh of a registered device
    make one endpoint call; on [UnauthorizedError] or [ForbiddenError]
    they make one token request and, if it succeeds, one more endpoint
    call, and no other request.  A failure of the token request, of the
    second call (authorization failures included) or any
    non-authorization failure of the first call is the operation's
    result, unchanged. *)
Theorem reauth_retry_once (net : nat -> http_outcome) (s : St) :
  (forall r s', setup_devices net s = (r, s') ->
     exists delta, log s' = (log s ++ delta)%list /\
       Spec.retry_once (fun n => request_result (net n)) "getdeviceslist" (length (log s)) r delta) /\
  (forall sn dev r s', devices (client s) !! sn = Some dev ->
     get_latest_data net sn s = (r, s') ->
     exists delta, log s' = (log s ++ delta)%list /\
       Spec.retry_once (fun n => request_result (net n)) "getdata" (length (log s)) r delta).
Proof.
  split.
  - intros r s' Hrun. unfold setup_devices, get_device_list in Hrun.
    eapply with_reauth_retry_run; [|exact Hrun].
    intros v. apply bind_no_calls; [apply modify_no_calls|].
    intros _. destruct v; auto with nocalls.
  - intros sn dev r s' Hdev Hrun.
    unfold get_latest_data, get in Hrun. unfold mbind at 1, M_bind at 1 in Hrun.
    rewrite Hdev in Hrun. unfold get_device_data in Hrun.
    eapply with_reauth_retry_run; [|exact Hrun].
    intros v. apply bind_no_calls.
    + destruct v; auto with nocalls. destruct (dict_get "data" kv); auto with nocalls.
    + intros [d|]; [|auto with nocalls].
      apply bind_no_calls; [auto with nocalls|]. intros samples.
      destruct (Device.update_data dev samples) as [dev' [e|]];
        apply bind_no_calls; auto with nocalls.
Qed.

(** The scenario of the specification: the data refresh fails with 401
    once, then succeeds. *)
Definition retry_net (n : nat) : http_outcome :=
  match n with
  | O => Response (mkResponse 401 "text/plain" (Some "Unauthorized") None)
  | S O => Response (mkResponse 200 "application/json" None
             (Some (JObj [("access_token", JStr "T"); ("refresh_token", JStr "R")])))
  | _ => Response (mkResponse 200 "application/json" None
           (Some (JObj [("data", JArr [JObj [("temperature", JInt 22); ("timestamp", JInt 3000)]])])))
  end.

Definition retry_state : St :=
  {| client := set_devices (Client.new "key") {[ "UHOO12345" := Device.init [("serialNumber", JStr "UHOO12345")] ]};
     log := [] |}.

Lemma reauth_retry_once_witness :
  exists delta,
    log (snd (get_latest_data retry_net "UHOO12345" retry_state)) = (log retry_state ++ delta)%list /\
    Spec.retry_once (fun n => request_result (retry_net n)) "getdata" 0
      (fst (get_latest_data retry_net "UHOO12345" retry_state)) delta.
Proof.
  destruct (proj2 (reauth_retry_once retry_net retry_state) "UHOO12345"
              (Device.init [("serialNumber", JStr "UHOO12345")])
              (fst (get_latest_data retry_net "UHOO12345" retry_state))
              (snd (get_latest_data retry_net "UHOO12345" retry_state)))
    as (delta & H1 & H2).
  - reflexivity.
  - vm_compute. reflexivity.
  - exists delta. split; [exact H1 | exact H2].
Defined.

Example retry_scenario :
  let '(r, s') := get_latest_data retry_net "UHOO12345" retry_state in
  r = Ok tt /\
  map call_url (log s') = [Spec.endpoint "getdata"; Spec.endpoint "generatetoken"; Spec.endpoint "getdata"] /\
  ((fun d => Device.getattr d "temperature") <$> devices (client s') !! "UHOO12345") = Some (220 # 10)%Q /\
  (Device.timestamp <$> devices (client s') !! "UHOO12345") = Some (JInt 3000).
Proof. vm_compute. repeat split; reflexivity. Qed.

(** C4: after a token reply carrying an access token, the client holds
    the access and refresh tokens and the helper's bearer slot holds the
    access token; after a reply with none (no object, no key, an empty
    or non-string value), both tokens and the bearer slot are cleared. *)
Theorem login_tokens (net : nat -> http_outcome) (s : St) :
  (forall token t,
     request_result (net (length (log s))) = Ok token -> access_of token = Some t ->
     fst (login net s) = Ok tt /\
     access_token (client (snd (login net s))) = Some t /\
     refresh_token (client (snd (login net s))) = refresh_of token /\
     bearer_token (client (snd (login net s))) = Some t) /\
  (forall token,
     request_result (net (length (log s))) = Ok token -> access_of token = None ->
     fst (login net s) = Ok tt /\
     access_token (client (snd (login net s))) = None /\
     refresh_token (client (snd (login net s))) = None /\
     bearer_token (client (snd (login net s))) = None).
Proof.
  rewrite login_run. simpl. split.
  - intros token t Hr Ha. rewrite Hr, Ha. simpl. done.
  - intros token Hr Ha. rewrite Hr, Ha. simpl. done.
Qed.

Definition token_net (n : nat) : http_outcome :=
  Response (mkResponse 200 "application/json" None
    (Some (JObj [("access_token", JStr "T"); ("refresh_token", JStr "R");
                 ("token_type", JStr "Bearer"); ("expires_in", JInt 3600)]))).

Lemma login_tokens_witness :
  bearer_token (client (snd (login token_net (mkSt (Client.new "key") [])))) = Some "T" /\
  access_token (client (snd (login token_net (mkSt (Client.new "key") [])))) = Some "T".
Proof.
  destruct (proj1 (login_tokens token_net (mkSt (Client.new "key") []))
              (JObj [("access_token", JStr "T"); ("refresh_token", JStr "R");
                     ("token_type", JStr "Bearer"); ("expires_in", JInt 3600)]) "T")
    as (_ & Ha & _ & Hb).
  - reflexivity.
  - reflexivity.
  - split; [exact Hb | exact Ha].
Defined.

(** C5: when the device-list reply that discovery goes on with (first
    call or retry) is a list of objects, every serial number maps to the
    record built from the first entry carrying it; later entries with
    the same serial number are dropped. *)
Theorem setup_devices_first_wins (net : nat -> http_outcome) (s s1 : St) (xs : list dict) :
  with_reauth net (get_device_list net) s = (Ok (JArr (map JObj xs)), s1) ->
  fst (setup_devices net s) = Ok tt /\
  forall sn, devices (client (snd (setup_devices net s))) !! sn =
    Device.init <$> find (fun kv => String.eqb (Device.get_str "serialNumber" kv) sn) xs.
Proof.
  intros H.
  assert (Hrun : setup_devices net s =
            add_devices (map JObj xs) {| client := set_devices (client s1) ∅; log := log s1 |}).
  { unfold setup_devices, mbind, M_bind. rewrite H. reflexivity. }
  rewrite Hrun. split.
  - pose proof (add_devices_run xs {| client := set_devices (client s1) ∅; log := log s1 |} "") as Hx.
    destruct (add_devices _ _) as [r s']. by destruct Hx as [-> _].
  - intros sn.
    pose proof (add_devices_run xs {| client := set_devices (client s1) ∅; log := log s1 |} sn) as Hx.
    destruct (add_devices _ _) as [r s']. destruct Hx as (_ & _ & Hd).
    simpl. rewrite Hd. simpl. by rewrite lookup_empty.
Qed.

Definition duplicate_net (n : nat) : http_outcome :=
  Response (mkResponse 200 "application/json" None
    (Some (JArr [JObj [("serialNumber", JStr "A"); ("deviceName", JStr "X")];
                 JObj [("serialNumber", JStr "A"); ("deviceName", JStr "Y")]]))).

Lemma setup_devices_first_wins_witness :
  Device.device_name <$> devices (client (snd (setup_devices duplicate_net (mkSt (Client.new "key") [])))) !! "A"
  = Some "X".
Proof.
  destruct (setup_devices_first_wins duplicate_net (mkSt (Client.new "key") [])
              (snd (with_reauth duplicate_net (get_device_list duplicate_net) (mkSt (Client.new "key") [])))
              [[("serialNumber", JStr "A"); ("deviceName", JStr "X")];
               [("serialNumber", JStr "A"); ("deviceName", JStr "Y")]]) as [_ Hd].
  - vm_compute. reflexivity.
  - rewrite Hd. reflexivity.
Defined.

(** C6: for a serial number that is not registered, [get_latest_data]
    raises [KeyError] and leaves the whole state, the request log
    included, as it was: no request is sent. *)
Theorem get_latest_data_unknown (net : nat -> http_outcome) (s : St) (sn : string) :
  devices (client s) !! sn = None ->
  get_latest_data net sn s = (Err (KeyError sn), s).
Proof.
  intros H. unfold get_latest_data, get, mbind, M_bind. simpl. rewrite H. reflexivity.
Qed.

Lemma get_latest_data_unknown_witness :
  get_latest_data retry_net "NONEXISTENT" retry_state = (Err (KeyError "NONEXISTENT"), retry_state).
Proof. apply get_latest_data_unknown. reflexivity. Defined.

(** C10: when the data fetch of a registered device answers [None] (no
    wrapping object), [get_latest_data] ends in [UnboundLocalError] for
    [data] and the device records are not touched. *)
Theorem get_latest_data_none_reply (net : nat -> http_outcome) (s s1 : St) (sn : string)
    (dev : Device.Device) :
  devices (client s) !! sn = Some dev ->
  with_reauth net (get_device_data net sn (mode (client s)) (limit (client s))) s = (Ok JNull, s1) ->
  get_latest_data net sn s = (Err (UnboundLocalError "data"), s1) /\
  devices (client s1) = devices (client s).
Proof.
  intros Hdev H. split.
  - unfold get_latest_data, get, mbind at 1, M_bind at 1. simpl. rewrite Hdev.
    unfold mbind at 1, M_bind at 1. rewrite H. reflexivity.
  - exact (with_reauth_devices _ _ _ _ _ _ H).
Qed.

Definition none_net (n : nat) : http_outcome :=
  Response (mkResponse 200 "application/json" None (Some JNull)).

Lemma get_latest_data_none_reply_witness :
  fst (get_latest_data none_net "UHOO12345" retry_state) = Err (UnboundLocalError "data").
Proof.
  destruct (get_latest_data_none_reply none_net retry_state
              (snd (with_reauth none_net (get_device_data none_net "UHOO12345" "minute" 5) retry_state))
              "UHOO12345" (Device.init [("serialNumber", JStr "UHOO12345")])) as [H _].
  - reflexivity.
  - vm_compute. reflexivity.
  - rewrite H. reflexivity.
Defined.

(** ** The transport helper *)

(** C7: a response with an error status whose body can be read fails
    with [UnauthorizedError] for 401, [ForbiddenError] for 403 and
    [RequestError] for any other status; a failure while sending, or
    while reading or decoding the body, fails with [RequestError]. *)
Theorem request_error_mapping :
  (forall (r : http_response) (t : string),
     (400 <= status r)%Z -> resp_text r = Some t ->
     (status r = 401%Z -> request_result (Response r) = Err (UnauthorizedError t)) /\
     (status r = 403%Z -> request_result (Response r) = Err (ForbiddenError t)) /\
     (status r <> 401%Z -> status r <> 403%Z ->
        exists m, request_result (Response r) = Err (RequestError m))) /\
  (forall cause, exists m, request_result (SendFailure cause) = Err (RequestError m)) /\
  (forall r : http_response, (400 <= status r)%Z -> resp_text r = None ->
     exists m, request_result (Response r) = Err (RequestError m)) /\
  (forall r : http_response, (status r < 400)%Z ->
     (content_type r = "application/json" /\ resp_json r = None) \/
     (content_type r <> "application/json" /\ resp_text r = None) ->
     exists m, request_result (Response r) = Err (RequestError m)).
Proof.
  split; [|split; [|split]].
  - intros r t Hs Ht. unfold request_result.
    assert (Hge : (400 <=? status r)%Z = true) by (apply Z.leb_le; exact Hs).
    rewrite Hge, Ht. repeat split.
    + intros H4. rewrite H4. reflexivity.
    + intros H3. rewrite H3. reflexivity.
    + intros H4 H3. apply Z.eqb_neq in H4, H3. rewrite H4, H3. by eexists.
  - intros cause. by eexists.
  - intros r Hs Ht. unfold request_result.
    assert (Hge : (400 <=? status r)%Z = true) by (apply Z.leb_le; exact Hs).
    rewrite Hge, Ht.
    destruct (status r =? 401)%Z; [by eexists|].
    destruct (status r =? 403)%Z; by eexists.
  - intros r Hs Hb. unfold request_result.
    assert (Hlt : (400 <=? status r)%Z = false) by (apply Z.leb_gt; exact Hs).
    rewrite Hlt.
    destruct Hb as [[Hc Hj]|[Hc Ht]].
    + rewrite Hc, Hj. simpl. by eexists.
    + apply String.eqb_neq in Hc. rewrite Hc, Ht. by eexists.
Qed.

Lemma request_error_mapping_witness :
  request_result (Response (mkResponse 401 "application/json" (Some "{}") (Some (JObj []))))
    = Err (UnauthorizedError "{}") /\
  request_result (Response (mkResponse 403 "text/plain" (Some "Forbidden") None))
    = Err (ForbiddenError "Forbidden") /\
  (exists m, request_result (Response (mkResponse 500 "application/json" (Some "") None))
    = Err (RequestError m)) /\
  (exists m, request_result (Response (mkResponse 200 "application/json" (Some "") None))
    = Err (RequestError m)).
Proof.
  destruct request_error_mapping as (Herr & _ & _ & Hbody).
  split; [|split; [|split]].
  - apply (Herr (mkResponse 401 "application/json" (Some "{}") (Some (JObj []))) "{}");
      simpl; [lia | reflexivity | reflexivity].
  - apply (Herr (mkResponse 403 "text/plain" (Some "Forbidden") None) "Forbidden");
      simpl; [lia | reflexivity | reflexivity].
  - apply (Herr (mkResponse 500 "application/json" (Some "") None) "");
      simpl; [lia | reflexivity | discriminate | discriminate].
  - apply (Hbody (mkResponse 200 "application/json" (Some "") None)); simpl; [lia|].
    left. split; reflexivity.
Defined.

Lemma update_device_overwrites_witness :
  Device.device_name (Device.update_device
     (Device.init [("deviceName", JStr "Original"); ("macAddress", JStr "AA")])
     [("deviceName", JStr "Updated")]) = "Updated" /\
  Device.mac_address (Device.update_device
     (Device.init [("deviceName", JStr "Original"); ("macAddress", JStr "AA")])
     [("deviceName", JStr "Updated")]) = "" /\
  Device.floor_number (Device.update_device
     (Device.init [("deviceName", JStr "Original"); ("macAddress", JStr "AA")])
     [("deviceName", JStr "Updated")]) = 0%Z.
Proof.
  destruct (update_device_overwrites
              (Device.init [("deviceName", JStr "Original"); ("macAddress", JStr "AA")])
              [("deviceName", JStr "Updated")]) as (Hs & _ & Hf).
  split; [|split].
  - apply (proj1 (Hs "deviceName" Device.device_name ltac:(simpl; tauto)) "Updated").
    reflexivity.
  - apply (proj2 (Hs "macAddress" Device.mac_address ltac:(simpl; tauto))). reflexivity.
  - apply Hf. reflexivity.
Defined.

Lemma serial_number_updates_witness :
  Device.serial_number (Device.update_device
     (Device.init [("deviceName", JStr "Original"); ("serialNumber", JStr "ORIG123")])
     [("deviceName", JStr "Updated")]) = "" /\
  Device.serial_number (Device.update_device Device.blank
     [("serialNumber", JStr "UHOO99999")]) = "UHOO99999".
Proof.
  split.
  - apply (proj2 (proj2 (serial_number_updates
       (Device.init [("deviceName", JStr "Original"); ("serialNumber", JStr "ORIG123")])
       [("deviceName", JStr "Updated")] []))).
    reflexivity.
  - apply (proj1 (proj2 (serial_number_updates Device.blank
       [("serialNumber", JStr "UHOO99999")] []))).
    reflexivity.
Defined.

(** ** The averaging cases of the device tests *)

Example average_two_points :
  let d := fst (Device.update_data Device.blank
    [[("temperature", JNum (225 # 10)); ("humidity", JNum 45); ("co2", JInt 800); ("timestamp", JInt 1704067200)];
     [("temperature", JNum (226 # 10)); ("humidity", JNum (455 # 10)); ("co2", JInt 810); ("timestamp", JInt 1704067260)]]) in
  (Device.getattr d "temperature" == 226 # 10)%Q /\
  (Device.getattr d "humidity" == 452 # 10)%Q /\
  (Device.getattr d "co2" == 805)%Q /\
  Device.timestamp d = JInt 1704067260.
Proof. vm_compute. repeat split; reflexivity. Qed.

Example average_missing_values :
  let d := fst (Device.update_data Device.blank
    [[("temperature", JNum 20); ("humidity", JNum 40)];
     [("temperature", JNum 22)];
     [("humidity", JNum 50)]]) in
  (Device.getattr d "temperature" == 14)%Q /\
  (Device.getattr d "humidity" == 30)%Q /\
  Device.timestamp d = JInt (-1).
Proof. vm_compute. repeat split; reflexivity. Qed.

(** * Properties of the release script *)

Import Bump.

Lemma str_app_cons c a b : String c a ++ b = String c (a ++ b).
Proof. reflexivity. Qed.

Lemma str_app_nil_l b : EmptyString ++ b = b.
Proof. reflexivity. Qed.

Ltac sapp := repeat rewrite ?str_app_cons, ?str_app_nil_l in *.

Lemma str_app_assoc (a b c : string) : (a ++ b) ++ c = a ++ b ++ c.
Proof. induction a; sapp; congruence. Qed.

Lemma str_app_nil_r (a : string) : a ++ EmptyString = a.
Proof. induction a; sapp; congruence. Qed.

Lemma str_length_app (a b : string) : String.length (a ++ b) = String.length a + String.length b.
Proof. induction a; sapp; simpl; congruence. Qed.

Lemma all_chars_app p a b : all_chars p (a ++ b) = all_chars p a && all_chars p b.
Proof. induction a; sapp; simpl; [reflexivity|]. rewrite IHa. apply andb_assoc. Qed.

Lemma strip_prefix_app p y : strip_prefix p (p ++ y) = Some y.
Proof. induction p; sapp; simpl; [reflexivity|]. rewrite Ascii.eqb_refl. exact IHp. Qed.

Lemma strip_prefix_some p x y : strip_prefix p x = Some y -> x = p ++ y.
Proof.
  revert x; induction p as [|c p IH]; intros x H; simpl in *.
  - sapp; congruence.
  - destruct x as [|d x]; [discriminate|].
    destruct (Ascii.eqb c d) eqn:E; [|discriminate].
    apply Ascii.eqb_eq in E; subst. sapp. f_equal. auto.
Qed.

Lemma take_run_spec x r t :
  take_run x = (r, t) ->
  x = r ++ t /\ all_chars is_digit_or_dot r = true /\
  match t with EmptyString => True | String c _ => is_digit_or_dot c = false end.
Proof.
  revert r t; induction x as [|c x IH]; intros r t H; simpl in H.
  - inversion H; subst; sapp; simpl; auto.
  - destruct (is_digit_or_dot c) eqn:E.
    + destruct (take_run x) as [r' t'] eqn:Ht. inversion H; subst.
      destruct (IH r' t eq_refl) as (-> & Hr & Ht'). sapp. simpl. rewrite E. auto.
    + inversion H; subst. sapp. simpl. auto.
Qed.

Lemma take_run_app r c t :
  all_chars is_digit_or_dot r = true -> is_digit_or_dot c = false ->
  take_run (r ++ String c t) = (r, String c t).
Proof.
  intros Hr Hc; induction r as [|d r IH]; sapp; simpl in *.
  - rewrite Hc. reflexivity.
  - apply andb_prop in Hr as [Hd Hr]. rewrite Hd, IH by exact Hr. reflexivity.
Qed.

Lemma quote_not_run : is_digit_or_dot quote = false.
Proof. reflexivity. Qed.

Lemma match_at_some lit x r t :
  match_at lit x = Some (r, t) ->
  x = lit ++ r ++ String quote t /\ r <> EmptyString /\ all_chars is_digit_or_dot r = true.
Proof.
  unfold match_at. destruct (strip_prefix lit x) as [y|] eqn:Hp; [|discriminate].
  apply strip_prefix_some in Hp as ->.
  destruct (take_run y) as [run rest] eqn:Ht.
  destruct (take_run_spec _ _ _ Ht) as (-> & Hr & _).
  destruct run as [|c0 run]; [discriminate|].
  destruct rest as [|q rest]; [discriminate|].
  destruct (Ascii.eqb q quote) eqn:Eq; [|discriminate].
  apply Ascii.eqb_eq in Eq; subst. intros H; inversion H; subst.
  split; [|split]; [reflexivity|discriminate|exact Hr].
Qed.

Lemma match_at_intro lit r t :
  r <> EmptyString -> all_chars is_digit_or_dot r = true ->
  match_at lit (lit ++ r ++ String quote t) = Some (r, t).
Proof.
  intros Hne Hr. unfold match_at. rewrite strip_prefix_app.
  rewrite take_run_app by (exact Hr || exact quote_not_run).
  destruct r as [|c r]; [congruence|]. rewrite Ascii.eqb_refl. reflexivity.
Qed.

Lemma match_at_empty lit : match_at lit EmptyString = None.
Proof.
  destruct (match_at lit EmptyString) as [[r t]|] eqn:H; [|reflexivity].
  apply match_at_some in H as (H & _).
  apply (f_equal String.length) in H. rewrite !str_length_app in H. simpl in H. lia.
Qed.

Lemma match_at_shorter lit x r t :
  match_at lit x = Some (r, t) -> String.length t < String.length x.
Proof.
  intros H. apply match_at_some in H as (-> & _).
  rewrite !str_length_app. simpl. lia.
Qed.

Section Fuel.
Variable lit R : string.

Lemma sub_fuel_stable n m x :
  String.length x <= n -> String.length x <= m -> sub_fuel lit R n x = sub_fuel lit R m x.
Proof.
  revert m x; induction n as [|n IH]; intros m x Hn Hm.
  - destruct x; simpl in Hn; [|lia]. destruct m; simpl; [reflexivity|].
    rewrite match_at_empty. reflexivity.
  - destruct m as [|m].
    + destruct x; simpl in Hm; [|lia]. simpl. rewrite match_at_empty. reflexivity.
    + simpl. destruct (match_at lit x) as [[r t]|] eqn:H.
      * apply match_at_shorter in H. f_equal. apply IH; lia.
      * destruct x as [|c x]; [reflexivity|]. simpl in *. f_equal. apply IH; lia.
Qed.

Lemma sub_match x r t :
  match_at lit x = Some (r, t) -> sub lit R x = R ++ sub lit R t.
Proof.
  intros H. unfold sub. pose proof (match_at_shorter _ _ _ _ H) as Hl.
  destruct (String.length x) as [|n] eqn:E; [lia|]. simpl. rewrite H. f_equal.
  apply sub_fuel_stable; lia.
Qed.

Lemma sub_nomatch c x :
  match_at lit (String c x) = None -> sub lit R (String c x) = String c (sub lit R x).
Proof. intros H. unfold sub. simpl. rewrite H. reflexivity. Qed.

Lemma sub_nil : sub lit R EmptyString = EmptyString.
Proof. reflexivity. Qed.

Lemma findall_fuel_stable n m x :
  String.length x <= n -> String.length x <= m -> findall_fuel lit n x = findall_fuel lit m x.
Proof.
  revert m x; induction n as [|n IH]; intros m x Hn Hm.
  - destruct x; simpl in Hn; [|lia]. destruct m; simpl; [reflexivity|].
    rewrite match_at_empty. reflexivity.
  - destruct m as [|m].
    + destruct x; simpl in Hm; [|lia]. simpl. rewrite match_at_empty. reflexivity.
    + simpl. destruct (match_at lit x) as [[r t]|] eqn:H.
      * apply match_at_shorter in H. f_equal. apply IH; lia.
      * destruct x as [|c x]; [reflexivity|]. simpl in *. apply IH; lia.
Qed.

Lemma findall_match x r t :
  match_at lit x = Some (r, t) -> findall lit x = r :: findall lit t.
Proof.
  intros H. unfold findall. pose proof (match_at_shorter _ _ _ _ H) as Hl.
  destruct (String.length x) as [|n] eqn:E; [lia|]. simpl. rewrite H. f_equal.
  apply findall_fuel_stable; lia.
Qed.

Lemma findall_nomatch c x :
  match_at lit (String c x) = None -> findall lit (String c x) = findall lit x.
Proof. intros H. unfold findall. simpl. rewrite H. reflexivity. Qed.


Lemma search_findall x : search lit x = head (findall lit x).
Proof.
  induction x as [|c x IH].
  - simpl. rewrite match_at_empty. reflexivity.
  - simpl search. destruct (match_at lit (String c x)) as [[r t]|] eqn:H.
    + rewrite (findall_match _ _ _ H). reflexivity.
    + rewrite (findall_nomatch _ _ H). exact IH.
Qed.

End Fuel.


Lemma str_ind_len (P : string -> Prop) :
  (forall x, (forall y, String.length y < String.length x -> P y) -> P x) -> forall x, P x.
Proof. intros H x. apply (Wf_nat.induction_ltof1 _ String.length P). exact H. Qed.

Lemma agree_common a b y z : a ++ y = b ++ z -> agree a b = true.
Proof.
  revert b; induction a as [|c a IH]; intros b H; [reflexivity|].
  destruct b as [|d b]; [reflexivity|]. sapp. inversion H; subst. simpl.
  rewrite Ascii.eqb_refl. simpl. eauto.
Qed.

Lemma agree_false_app p s y : agree p s = false -> agree p (s ++ y) = false.
Proof.
  revert s; induction p as [|c p IH]; intros s H; [discriminate|].
  destruct s as [|d s]; [discriminate|]. sapp. simpl in *.
  destruct (Ascii.eqb c d); simpl in *; auto.
Qed.

Lemma no_lit_in_app lit a y :
  no_lit_in lit a = true -> no_lit_in lit y = true -> no_lit_in lit (a ++ y) = true.
Proof.
  induction a as [|c a IH]; intros Ha Hy; sapp; [exact Hy|]. simpl in *.
  apply andb_prop in Ha as [Hc Ha]. apply negb_true_iff in Hc.
  rewrite <- str_app_cons, (agree_false_app _ _ _ Hc). simpl. auto.
Qed.

Lemma no_lit_in_other l0 lt y :
  all_chars (fun ch => negb (Ascii.eqb ch l0)) y = true -> no_lit_in (String l0 lt) y = true.
Proof.
  induction y as [|c y IH]; intros H; [reflexivity|]. simpl in *.
  apply andb_prop in H as [Hc H]. rewrite IH by exact H.
  rewrite Ascii.eqb_sym, (negb_true_iff _) in Hc. rewrite Hc. reflexivity.
Qed.

Lemma run_not_l0 l0 r :
  is_digit_or_dot l0 = false -> all_chars is_digit_or_dot r = true ->
  all_chars (fun ch => negb (Ascii.eqb ch l0)) r = true.
Proof.
  intros Hl0; induction r as [|c r IH]; intros H; [reflexivity|]. simpl in *.
  apply andb_prop in H as [Hc H]. rewrite IH by exact H.
  destruct (Ascii.eqb c l0) eqn:E; [|reflexivity].
  apply Ascii.eqb_eq in E; subst. congruence.
Qed.

Lemma sub_walk lit R z w : forall x rest,
  R = lit ++ z -> sub lit R x = w ++ rest -> no_lit_in lit w = true ->
  exists rest', x = w ++ rest'.
Proof.
  induction w as [|c w IH]; intros x rest HR Hs Hw.
  - exists x. reflexivity.
  - destruct (match_at lit x) as [[r t]|] eqn:Hm.
    + rewrite (sub_match _ _ _ _ _ Hm), HR, str_app_assoc in Hs.
      apply agree_common in Hs. simpl in Hw. rewrite Hs in Hw. discriminate.
    + destruct x as [|d x]; [discriminate|].
      rewrite (sub_nomatch _ _ _ _ Hm) in Hs. sapp. inversion Hs; subst.
      simpl in Hw. apply andb_prop in Hw as [_ Hw].
      destruct (IH x rest eq_refl H1 Hw) as [rest' ->]. exists rest'. sapp. reflexivity.
Qed.

Section Sub.
Variable lit : string.

Hypothesis Hlit : lit_ok lit = true.

Lemma match_after_nomatch R z c x :
  R = lit ++ z -> match_at lit (String c x) = None ->
  match_at lit (String c (sub lit R x)) = None.
Proof.
  intros HR Hm.
  destruct (match_at lit (String c (sub lit R x))) as [[r t]|] eqn:Hm'; [|reflexivity].
  exfalso. apply match_at_some in Hm' as (Heq & Hne & Hr).
  destruct lit as [|l0 lt] eqn:El; [discriminate|]. unfold lit_ok in Hlit.
  apply andb_prop in Hlit as [Hlit' Hq]. apply andb_prop in Hlit' as [Hlt Hd].
  apply negb_true_iff in Hd, Hq.
  rewrite str_app_cons in Heq. inversion Heq as [[Hc Hx]]. subst c.
  assert (Hw : no_lit_in (String l0 lt) (lt ++ r ++ String quote EmptyString) = true).
  { apply no_lit_in_app; [exact Hlt|]. apply no_lit_in_other.
    rewrite all_chars_app, run_not_l0 by assumption. cbn [all_chars andb].
    rewrite Ascii.eqb_sym, Hq. reflexivity. }
  assert (Hx' : sub (String l0 lt) R x = (lt ++ r ++ String quote EmptyString) ++ t).
  { rewrite Hx, !str_app_assoc. sapp. reflexivity. }
  destruct (sub_walk _ R z _ x t HR Hx' Hw) as [rest' Hxr].
  rewrite Hxr, !str_app_assoc in Hm. rewrite str_app_cons, <- (str_app_cons l0 lt) in Hm.
  rewrite str_app_cons in Hm.
  rewrite <- (str_app_cons l0 lt), (match_at_intro _ _ _ Hne Hr) in Hm. discriminate.
Qed.

Variable V : string.
Hypothesis HVne : V <> EmptyString.
Hypothesis HVrun : all_chars is_digit_or_dot V = true.

Lemma match_at_repl Y : match_at lit (repl lit V ++ Y) = Some (V, Y).
Proof.
  unfold repl. rewrite !str_app_assoc. sapp. apply match_at_intro; assumption.
Qed.

Lemma findall_sub_repl x :
  findall lit (sub lit (repl lit V) x) = map (fun _ => V) (findall lit x).
Proof.
  induction x as [x IH] using str_ind_len.
  destruct (match_at lit x) as [[r t]|] eqn:Hm.
  - rewrite (sub_match _ _ _ _ _ Hm), (findall_match _ _ _ _ Hm).
    rewrite (findall_match _ _ _ _ (match_at_repl _)). simpl. f_equal.
    apply IH. exact (match_at_shorter _ _ _ _ Hm).
  - destruct x as [|c x]; [reflexivity|].
    rewrite (sub_nomatch _ _ _ _ Hm), (findall_nomatch _ _ _ Hm).
    rewrite (findall_nomatch _ _ _ (match_after_nomatch (repl lit V) (V ++ String quote EmptyString) _ _ eq_refl Hm)).
    apply IH. simpl. lia.
Qed.

End Sub.

Lemma sub_fixed lit V x :
  (forall r, In r (findall lit x) -> r = V) -> sub lit (repl lit V) x = x.
Proof.
  induction x as [x IH] using str_ind_len. intros Hall.
  destruct (match_at lit x) as [[r t]|] eqn:Hm.
  - rewrite (sub_match _ _ _ _ _ Hm). rewrite (findall_match _ _ _ _ Hm) in Hall.
    rewrite IH.
    + apply match_at_some in Hm as (Hx & _). rewrite Hx.
      rewrite (Hall r (or_introl eq_refl)). unfold repl. rewrite !str_app_assoc. sapp. reflexivity.
    + exact (match_at_shorter _ _ _ _ Hm).
    + intros r' Hr'. apply Hall. right. exact Hr'.
  - destruct x as [|c x]; [reflexivity|].
    rewrite (sub_nomatch _ _ _ _ Hm). rewrite (findall_nomatch _ _ _ Hm) in Hall.
    f_equal. apply IH; [simpl; lia|exact Hall].
Qed.


Lemma lit_ok_pyproject : lit_ok lit_pyproject = true.
Proof. vm_compute. reflexivity. Qed.


Lemma uint_of_string_of_uint u : uint_of_string (string_of_uint u) = Some u.
Proof. induction u; simpl; try rewrite IHu; reflexivity. Qed.

Lemma string_of_uint_digits u : all_chars is_digit (string_of_uint u) = true.
Proof. induction u; simpl; try rewrite IHu; reflexivity. Qed.

Lemma to_uint_not_nil n : N.to_uint n <> Decimal.Nil.
Proof. destruct n as [|p]; [discriminate|]. apply DecimalPos.Unsigned.to_uint_nonnil. Qed.

Lemma str_of_N_ne n : str_of_N n <> EmptyString.
Proof.
  unfold str_of_N. pose proof (to_uint_not_nil n).
  destruct (N.to_uint n); simpl; congruence.
Qed.

Lemma py_int_str_of_N n : py_int (str_of_N n) = Some n.
Proof.
  unfold py_int. pose proof (str_of_N_ne n).
  destruct (str_of_N n) eqn:E; [congruence|]. rewrite <- E. unfold str_of_N.
  rewrite uint_of_string_of_uint. simpl. f_equal. apply DecimalN.Unsigned.of_to.
Qed.

Lemma digit_not_dot c : is_digit c = true -> Ascii.eqb c dot = false.
Proof. destruct c as [[] [] [] [] [] [] [] []]; vm_compute; congruence. Qed.

Lemma digits_no_sep s :
  all_chars is_digit s = true -> all_chars (fun ch => negb (Ascii.eqb ch dot)) s = true.
Proof.
  induction s as [|c s IH]; intros H; [reflexivity|]. simpl in *.
  apply andb_prop in H as [Hc H]. rewrite digit_not_dot, IH; auto.
Qed.

Lemma digits_run s : all_chars is_digit s = true -> all_chars is_digit_or_dot s = true.
Proof.
  induction s as [|c s IH]; intros H; [reflexivity|]. cbn [all_chars] in *.
  apply andb_prop in H as [Hc H]. rewrite IH by exact H. unfold is_digit_or_dot. rewrite Hc. reflexivity.
Qed.

Lemma py_split_ne sep x : exists p ps, py_split sep x = p :: ps.
Proof.
  induction x as [|c x [p [ps IH]]]; simpl; [eauto|].
  rewrite IH. destruct (Ascii.eqb c sep); eauto.
Qed.

Lemma py_split_nosep sep a y :
  all_chars (fun ch => negb (Ascii.eqb ch sep)) a = true ->
  py_split sep (a ++ y) =
    match py_split sep y with p :: ps => (a ++ p) :: ps | [] => [a] end.
Proof.
  induction a as [|c a IH]; intros H; sapp.
  - destruct (py_split_ne sep y) as [p [ps ->]]. reflexivity.
  - simpl in H. apply andb_prop in H as [Hc H]. apply negb_true_iff in Hc.
    simpl. rewrite Hc, IH by exact H.
    destruct (py_split_ne sep y) as [p [ps ->]]. reflexivity.
Qed.

Lemma py_split_sep_app sep a y :
  all_chars (fun ch => negb (Ascii.eqb ch sep)) a = true ->
  py_split sep (a ++ String sep y) = a :: py_split sep y.
Proof.
  intros H. rewrite py_split_nosep by exact H. simpl. rewrite Ascii.eqb_refl.
  rewrite str_app_nil_r. reflexivity.
Qed.

Lemma py_split_single sep a :
  all_chars (fun ch => negb (Ascii.eqb ch sep)) a = true -> py_split sep a = [a].
Proof.
  intros H. rewrite <- (str_app_nil_r a) at 1. rewrite py_split_nosep by exact H.
  simpl. rewrite str_app_nil_r. reflexivity.
Qed.

Lemma join_head_cons sep c p ps :
  join sep (String c p :: ps) = String c (join sep (p :: ps)).
Proof. destruct ps; reflexivity. Qed.

Lemma join_cons2 sep a b l : join sep (a :: b :: l) = a ++ sep ++ join sep (b :: l).
Proof. reflexivity. Qed.

Lemma join_split c x : join (String c EmptyString) (py_split c x) = x.
Proof.
  induction x as [|d x IH]; [reflexivity|]. simpl.
  destruct (Ascii.eqb d c) eqn:E.
  - apply Ascii.eqb_eq in E; subst. destruct (py_split_ne c x) as [p [ps Hs]].
    rewrite Hs in *. rewrite join_cons2, IH. reflexivity.
  - destruct (py_split_ne c x) as [p [ps Hs]]. rewrite Hs in *.
    rewrite join_head_cons, IH. reflexivity.
Qed.

Lemma dot_string : "." = String dot EmptyString.
Proof. reflexivity. Qed.

Lemma format_version_split t :
  let '(a, b, c) := t in
  format_version t = str_of_N a ++ String dot (str_of_N b ++ String dot (str_of_N c)).
Proof. destruct t as [[a b] c]. reflexivity. Qed.

Lemma parse_format_version t : parse_version (format_version t) = Some t.
Proof.
  pose proof (format_version_split t) as Hf. destruct t as [[a b] c].
  unfold parse_version. rewrite Hf.
  rewrite !py_split_sep_app, py_split_single
    by (apply digits_no_sep, string_of_uint_digits).
  rewrite !py_int_str_of_N. reflexivity.
Qed.

Lemma format_version_run t :
  all_chars is_digit_or_dot (format_version t) = true /\ format_version t <> EmptyString.
Proof.
  pose proof (format_version_split t) as Hf. destruct t as [[a b] c]. rewrite Hf.
  split.
  - rewrite all_chars_app. cbn [all_chars]. rewrite all_chars_app. cbn [all_chars].
    rewrite !digits_run by apply string_of_uint_digits. reflexivity.
  - pose proof (str_of_N_ne a). destruct (str_of_N a); [congruence|]. discriminate.
Qed.

Lemma digit_cons_digit c u u' : digit_cons c u = Some u' -> is_digit c = true.
Proof. destruct c as [[] [] [] [] [] [] [] []]; vm_compute; congruence. Qed.

Lemma digit_cons_total c u : is_digit c = true -> exists u', digit_cons c u = Some u'.
Proof. destruct c as [[] [] [] [] [] [] [] []]; vm_compute; try congruence; eauto. Qed.

Lemma uint_of_string_digits s u : uint_of_string s = Some u -> all_chars is_digit s = true.
Proof.
  revert u; induction s as [|c s IH]; intros u H; [reflexivity|]. simpl in *.
  destruct (uint_of_string s) as [v|] eqn:E; [|discriminate].
  rewrite (digit_cons_digit _ _ _ H). eauto.
Qed.

Lemma uint_of_string_total s : all_chars is_digit s = true -> exists u, uint_of_string s = Some u.
Proof.
  induction s as [|c s IH]; intros H; simpl; [eauto|]. simpl in H.
  apply andb_prop in H as [Hc H]. destruct (IH H) as [u ->]. apply digit_cons_total. exact Hc.
Qed.

Lemma py_int_some s n : py_int s = Some n -> s <> EmptyString /\ all_chars is_digit s = true.
Proof.
  unfold py_int. destruct s as [|c s']; [discriminate|]. intros H.
  destruct (uint_of_string (String c s')) as [u|] eqn:E; [|discriminate].
  split; [discriminate|]. exact (uint_of_string_digits _ _ E).
Qed.

Lemma py_int_total s : s <> EmptyString -> all_chars is_digit s = true -> exists n, py_int s = Some n.
Proof.
  intros Hne Hd. destruct (uint_of_string_total s Hd) as [u Hu].
  unfold py_int. destruct s; [congruence|]. rewrite Hu. eauto.
Qed.

Lemma py_split_elem_nosep sep x p : In p (py_split sep x) ->
  all_chars (fun ch => negb (Ascii.eqb ch sep)) p = true.
Proof.
  revert p; induction x as [|c x IH]; intros p Hin; simpl in Hin.
  - destruct Hin as [<-|[]]. reflexivity.
  - destruct (Ascii.eqb c sep) eqn:E.
    + destruct Hin as [<-|Hin]; [reflexivity|]. auto.
    + destruct (py_split_ne sep x) as [q [qs Hs]]. rewrite Hs in Hin, IH.
      destruct Hin as [<-|Hin].
      * simpl. rewrite E. simpl. apply IH. left. reflexivity.
      * apply IH. right. exact Hin.
Qed.


Lemma bump_version_ok_inv vt w nv w' :
  bump_version vt w = (Ret nv, w') ->
  exists content cur t,
    pyproject_toml w = Some content /\ search lit_pyproject content = Some cur /\
    parse_version cur = Some t /\ nv = format_version (bump_triple vt t) /\
    pyproject_toml w' = Some (sub lit_pyproject (repl lit_pyproject nv) content) /\
    init_py w' = match init_py w with
                 | Some ic => Some (if contains "__version__" ic
                                    then sub lit_init (repl lit_init nv) ic else ic)
                 | None => None
                 end /\
    changelog_md w' = changelog_md w /\ commands w' = commands w.
Proof.
  unfold bump_version. intros H.
  destruct (pyproject_toml w) as [content|] eqn:Hp; [|discriminate].
  destruct (search lit_pyproject content) as [cur|] eqn:Hs; [|discriminate].
  destruct (parse_version cur) as [t|] eqn:Ht; [|discriminate].
  inversion H; subst; clear H.
  exists content, cur, t.
  destruct (init_py w) as [ic|] eqn:Hi; [destruct (contains "__version__" ic) eqn:Hc|];
    simpl; rewrite ?Hi, ?Hc; simpl; repeat split; auto.
Qed.

Lemma search_some_findall lit x v : search lit x = Some v -> findall lit x <> [].
Proof. rewrite search_findall. destruct (findall lit x); [discriminate|congruence]. Qed.

Lemma search_after_sub lit V x :
  lit_ok lit = true -> V <> EmptyString -> all_chars is_digit_or_dot V = true ->
  findall lit x <> [] -> search lit (sub lit (repl lit V) x) = Some V.
Proof.
  intros Hl Hne Hr Hf. rewrite search_findall, findall_sub_repl by assumption.
  destruct (findall lit x); [congruence|reflexivity].
Qed.




(** X1: re-reading a formatted version gives the triple back: [map(int, f"{M}.{m}.{p}".split("."))] is [(M, m, p)]. *)
Theorem version_format_roundtrip (t : N * N * N) :
  parse_version (format_version t) = Some t.
Proof. apply parse_format_version. Qed.

Lemma parse_version_none_iff (v : string) :
  parse_version v = None <->
  ~ exists a b c, v = a ++ "." ++ b ++ "." ++ c /\
      a <> EmptyString /\ b <> EmptyString /\ c <> EmptyString /\
      all_chars is_digit (a ++ b ++ c) = true.
Proof.
  split.
  - intros Hn (a & b & c & -> & Ha & Hb & Hc & Hd).
    rewrite !all_chars_app in Hd.
    apply andb_prop in Hd as [Hda Hd]. apply andb_prop in Hd as [Hdb Hdc].
    unfold parse_version in Hn. rewrite !dot_string, !str_app_cons, !str_app_nil_l in Hn.
    rewrite !py_split_sep_app, py_split_single in Hn by (apply digits_no_sep; assumption).
    destruct (py_int_total a Ha Hda) as [x Hx]. destruct (py_int_total b Hb Hdb) as [y Hy].
    destruct (py_int_total c Hc Hdc) as [z Hz]. rewrite Hx, Hy, Hz in Hn. discriminate.
  - intros Hno. destruct (parse_version v) as [t|] eqn:E; [|reflexivity]. exfalso. apply Hno.
    unfold parse_version in E. pose proof (join_split dot v) as Hj.
    destruct (py_split dot v) as [|a [|b [|c [|d l]]]]; try discriminate.
    destruct (py_int a) eqn:Ea; [|discriminate]. destruct (py_int b) eqn:Eb; [|discriminate].
    destruct (py_int c) eqn:Ec; [|discriminate].
    apply py_int_some in Ea as [Ha Hda]. apply py_int_some in Eb as [Hb Hdb].
    apply py_int_some in Ec as [Hc Hdc].
    exists a, b, c. rewrite !dot_string. repeat split; try assumption.
    + rewrite <- Hj. reflexivity.
    + rewrite !all_chars_app, Hda, Hdb, Hdc. reflexivity.
Qed.

Lemma bump_reread_lemma (vt : string) (w w' : World) (nv : string)
  (H : bump_version vt w = (Ret nv, w')) :
  exists content content' cur t,
    pyproject_toml w = Some content /\ search lit_pyproject content = Some cur /\
    parse_version cur = Some t /\
    pyproject_toml w' = Some content' /\ search lit_pyproject content' = Some nv /\
    parse_version nv = Some (bump_triple vt t).
Proof.
  destruct (bump_version_ok_inv _ _ _ _ H) as (content & cur & t & Hp & Hs & Ht & Hnv & Hp' & _).
  exists content, (sub lit_pyproject (repl lit_pyproject nv) content), cur, t.
  destruct (format_version_run (bump_triple vt t)) as [Hr Hne]. rewrite <- Hnv in Hr, Hne.
  repeat split; try assumption.
  - apply search_after_sub; try assumption; [apply lit_ok_pyproject|].
    exact (search_some_findall _ _ _ Hs).
  - rewrite Hnv. apply parse_format_version.
Qed.

(** X4: [bump_version] rewrites every [version = "..."] entry of [pyproject.toml] (a [minversion = "..."] entry included) to the new version, and no other entry appears. *)
Theorem bump_version_all_entries (vt : string) (w w' : World) (nv content : string)
  (H : bump_version vt w = (Ret nv, w')) (Hc : pyproject_toml w = Some content) :
  exists content',
    pyproject_toml w' = Some content' /\
    findall lit_pyproject content' = map (fun _ => nv) (findall lit_pyproject content).
Proof.
  destruct (bump_version_ok_inv _ _ _ _ H) as (c0 & cur & t & Hp & Hs & Ht & Hnv & Hp' & _).
  rewrite Hc in Hp. injection Hp as <-.
  destruct (format_version_run (bump_triple vt t)) as [Hr Hne]. rewrite <- Hnv in Hr, Hne.
  eexists. split; [exact Hp'|]. apply findall_sub_repl; [apply lit_ok_pyproject|assumption|assumption].
Qed.


(** X6: a second [bump_version] after a successful one also succeeds, and bumps from the version the first one returned. *)
Theorem bump_version_twice (vt vt' : string) (w w1 : World) (v1 : string) (t1 : N * N * N)
  (H1 : bump_version vt w = (Ret v1, w1)) (Ht1 : parse_version v1 = Some t1) :
  exists w2, bump_version vt' w1 = (Ret (format_version (bump_triple vt' t1)), w2).
Proof.
  destruct (bump_reread_lemma _ _ _ _ H1) as (c & c' & cur & t & _ & _ & _ & Hp' & Hs' & _).
  unfold bump_version at 1. rewrite Hp', Hs', Ht1. eexists. reflexivity.
Qed.

(** X7: when [bump_version] exits or raises, it has written neither [pyproject.toml] nor [__init__.py]. *)
Theorem bump_version_failure_untouched (vt : string) (w : World) :
  match bump_version vt w with
  | (Ret _, _) => True
  | (_, w') => pyproject_toml w' = pyproject_toml w /\ init_py w' = init_py w
  end.
Proof.
  unfold bump_version.
  destruct (pyproject_toml w) as [content|] eqn:Hp; [|auto].
  destruct (search lit_pyproject content) as [cur|]; [|simpl; auto].
  destruct (parse_version cur); auto.
Qed.

Lemma bump_version_frame (vt : string) (w : World) :
  changelog_md (snd (bump_version vt w)) = changelog_md w /\
  commands (snd (bump_version vt w)) = commands w.
Proof.
  destruct (bump_version vt w) as [o w'] eqn:E. simpl.
  destruct o as [nv|c|e].
  - destruct (bump_version_ok_inv _ _ _ _ E) as (_ & _ & _ & _ & _ & _ & _ & _ & _ & Hc & Hm). auto.
  - unfold bump_version in E. destruct (pyproject_toml w); [|discriminate].
    destruct (search lit_pyproject s); [|injection E as _ <-; auto].
    destruct (parse_version s0); discriminate.
  - unfold bump_version in E. destruct (pyproject_toml w); [|injection E as _ <-; auto].
    destruct (search lit_pyproject s); [|discriminate].
    destruct (parse_version s0); [discriminate|injection E as _ <-; auto].
Qed.

(** X9: [bump_version] exits with status 1 exactly when [pyproject.toml] has no [version = "[\d.]+"] entry. *)
Theorem bump_version_exit (vt : string) (w : World) (content : string)
  (Hc : pyproject_toml w = Some content) :
  fst (bump_version vt w) = Exit 1%Z <-> findall lit_pyproject content = [].
Proof.
  unfold bump_version. rewrite Hc, search_findall.
  destruct (findall lit_pyproject content) as [|cur l]; simpl; [tauto|].
  split; [|discriminate]. destruct (parse_version cur); discriminate.
Qed.

(** X10: [bump_version] raises ValueError exactly when the first version entry is not three non-empty digit groups joined by dots (e.g. "1.2", "1..2", "1.2.3.4"). *)
Theorem bump_version_value_error (vt : string) (w : World) (content cur : string)
  (Hc : pyproject_toml w = Some content) (Hs : search lit_pyproject content = Some cur) :
  fst (bump_version vt w) = Raise ValueError <->
  ~ exists a b c, cur = a ++ "." ++ b ++ "." ++ c /\
      a <> EmptyString /\ b <> EmptyString /\ c <> EmptyString /\
      all_chars is_digit (a ++ b ++ c) = true.
Proof.
  unfold bump_version. rewrite Hc, Hs. rewrite <- parse_version_none_iff.
  destruct (parse_version cur); simpl; split; congruence.
Qed.



(** X3: after a successful [bump_version], searching [pyproject.toml] again finds the returned version, and it parses to the bumped triple of the version found before. *)
Theorem bump_version_reread (vt : string) (w w' : World) (nv : string)
  (H : bump_version vt w = (Ret nv, w')) :
  exists content content' cur t,
    pyproject_toml w = Some content /\ search lit_pyproject content = Some cur /\
    parse_version cur = Some t /\
    pyproject_toml w' = Some content' /\ search lit_pyproject content' = Some nv /\
    parse_version nv = Some (bump_triple vt t).
Proof. exact (bump_reread_lemma vt w w' nv H). Qed.

(** X8: [bump_version] never writes [CHANGELOG.md] and never runs a command. *)
Theorem bump_version_no_changelog (vt : string) (w : World) :
  changelog_md (snd (bump_version vt w)) = changelog_md w /\
  commands (snd (bump_version vt w)) = commands w.
Proof. apply bump_version_frame. Qed.


Lemma prefix_app p s y : String.prefix p s = true -> String.prefix p (s ++ y) = true.
Proof.
  revert s; induction p as [|c p IH]; intros s H; [destruct (s ++ y); reflexivity|].
  destruct s as [|d s]; [discriminate|]. rewrite str_app_cons. simpl in *.
  destruct (ascii_dec c d); [auto|discriminate].
Qed.

Lemma prefix_header_self : String.prefix header header = true.
Proof. reflexivity. Qed.

Lemma join_cons_app sep l0 ls : exists tl, join sep (l0 :: ls) = l0 ++ tl.
Proof. destruct ls; [exists EmptyString; rewrite str_app_nil_r|eexists]; reflexivity. Qed.

Lemma insert_entry_spec entry old :
  exists new P S sep,
    insert_entry entry old = Ret new /\ old = P ++ S /\ new = P ++ sep ++ entry ++ S /\
    In sep [nl; nl ++ nl; header ++ nl ++ nl] /\ String.prefix header new = true.
Proof.
  unfold insert_entry. pose proof (join_split nl_char old) as Hj. fold nl in Hj.
  destruct (py_split_ne nl_char old) as [l0 [ls Hs]]. rewrite Hs in *.
  destruct (String.prefix header l0) eqn:Hp.
  - destruct ls as [|l1 [|l2 rest]].
    + eexists _, old, EmptyString, (nl ++ nl). simpl in Hj. subst old.
      split; [reflexivity|]. split; [rewrite str_app_nil_r; reflexivity|].
      split; [simpl; rewrite !str_app_assoc; reflexivity|].
      split; [simpl; auto|]. simpl. apply prefix_app. exact Hp.
    + eexists _, old, EmptyString, (nl ++ nl). simpl in Hj. subst old.
      split; [reflexivity|]. split; [rewrite str_app_nil_r; reflexivity|].
      split; [simpl; rewrite !str_app_assoc; reflexivity|].
      split; [simpl; auto|]. simpl. rewrite !str_app_assoc. apply prefix_app. exact Hp.
    + eexists _, (l0 ++ nl ++ l1 ++ nl), (join nl (l2 :: rest)), nl.
      split; [reflexivity|].
      split; [rewrite <- Hj, !join_cons2, !str_app_assoc; reflexivity|].
      split; [simpl; rewrite !str_app_assoc; reflexivity|].
      split; [simpl; auto|]. simpl. rewrite !str_app_assoc. apply prefix_app. exact Hp.
  - eexists _, EmptyString, old, (header ++ nl ++ nl).
    split; [reflexivity|]. split; [reflexivity|].
    split; [rewrite !str_app_assoc; reflexivity|].
    split; [simpl; auto|]. apply prefix_app, prefix_header_self.
Qed.

Lemma update_changelog_run v vt w :
  exists new,
    insert_entry (changelog_entry v (today w) (commits_since_tag w)) (old_changelog w) = Ret new /\
    update_changelog v vt w =
      (Ret tt, print (write_changelog (run (run w describe_cmd)
                        (log_cmd (py_strip (git_out w describe_cmd)))) new)
                 "Updated CHANGELOG.md").
Proof.
  destruct (insert_entry_spec (changelog_entry v (today w) (commits_since_tag w)) (old_changelog w))
    as (new & _ & _ & _ & Hi & _).
  exists new. split; [exact Hi|].
  unfold update_changelog. cbn [git_out today changelog_md run].
  unfold old_changelog, commits_since_tag in Hi. rewrite Hi. reflexivity.
Qed.



(** X13: the changelog written by [update_changelog] always starts with "# Changelog". *)
Theorem update_changelog_starts_with_header (version version_type : string) (w : World) :
  exists new,
    changelog_md (snd (update_changelog version version_type w)) = Some new /\
    String.prefix header new = true.
Proof.
  destruct (update_changelog_run version version_type w) as (new & Hi & ->).
  destruct (insert_entry_spec (changelog_entry version (today w) (commits_since_tag w)) (old_changelog w))
    as (new' & _ & _ & _ & Hi' & _ & _ & _ & Hp).
  rewrite Hi in Hi'. injection Hi' as <-. exists new. auto.
Qed.


(** X15: the entry always has the "### Changes" heading, since [str.split] never returns an empty list; the "### No changes recorded" branch is unreachable. *)
Theorem changelog_entry_has_changes (version : string) (w : World) :
  changelog_entry version (today w) (commits_since_tag w) =
    "## [" ++ version ++ "] - " ++ today w ++ nl ++ nl ++
    "### Changes" ++ nl ++ commit_lines (commits_since_tag w) ++ nl.
Proof.
  unfold commits_since_tag.
  destruct (py_split_ne nl_char (py_strip (git_out w (log_cmd (py_strip (git_out w describe_cmd))))))
    as [p [ps ->]].
  unfold changelog_entry. rewrite !str_app_assoc. reflexivity.
Qed.

(** X16: [update_changelog] runs [git describe] then [git log <tag>..HEAD] with the stripped tag, and leaves [pyproject.toml] and [__init__.py] alone. *)
Theorem update_changelog_effects (version version_type : string) (w : World) :
  let w' := snd (update_changelog version version_type w) in
  commands w' = (commands w ++ [describe_cmd; log_cmd (py_strip (git_out w describe_cmd))])%list /\
  pyproject_toml w' = pyproject_toml w /\ init_py w' = init_py w.
Proof.
  destruct (update_changelog_run version version_type w) as (new & _ & ->).
  simpl. rewrite <- app_assoc. auto.
Qed.


Lemma bump_version_git vt w : git_out (snd (bump_version vt w)) = git_out w.
Proof.
  unfold bump_version. destruct (pyproject_toml w); [|reflexivity].
  destruct (search lit_pyproject s); [|reflexivity].
  destruct (parse_version s0); [|reflexivity]. simpl.
  destruct (init_py w); [destruct (contains "__version__" s1)|]; reflexivity.
Qed.

Lemma existsb_version_types vt :
  existsb (String.eqb vt) ["major"; "minor"; "patch"] = true <-> In vt ["major"; "minor"; "patch"].
Proof.
  rewrite existsb_exists. split.
  - intros (x & Hin & Hx). apply String.eqb_eq in Hx. subst. exact Hin.
  - intros Hin. exists vt. split; [exact Hin|apply String.eqb_refl].
Qed.

(** X17: [main] with a wrong argument count or a version type outside major, minor, patch prints the usage and exits with 1, touching nothing else. *)
Theorem main_usage (argv : list string) (w : World)
  (Hbad : ~ exists p vt, argv = [p; vt] /\ In vt ["major"; "minor"; "patch"]) :
  main argv w = (Exit 1%Z, print w usage).
Proof.
  unfold main. destruct argv as [|p [|vt [|]]]; try reflexivity.
  destruct (existsb (String.eqb vt) ["major"; "minor"; "patch"]) eqn:E; [|reflexivity].
  exfalso. apply Hbad. exists p, vt. split; [reflexivity|]. apply existsb_version_types. exact E.
Qed.

(** X18: a successful [main] ran git describe, git log, git add and git commit with the message "Bump version to V", in that order, where V is the version [pyproject.toml] now holds. *)
Theorem main_success (argv : list string) (w w' : World)
  (H : main argv w = (Ret tt, w')) :
  exists p vt nv content',
    argv = [p; vt] /\ In vt ["major"; "minor"; "patch"] /\
    commands w' = (commands w ++ [describe_cmd; log_cmd (py_strip (git_out w describe_cmd));
                                  add_cmd; commit_cmd nv])%list /\
    pyproject_toml w' = Some content' /\ search lit_pyproject content' = Some nv.
Proof.
  unfold main in H. destruct argv as [|p [|vt [|]]]; try discriminate.
  destruct (existsb (String.eqb vt) ["major"; "minor"; "patch"]) eqn:E; [|discriminate].
  destruct (bump_version vt w) as [[nv|c|e] w1] eqn:Hb; try discriminate.
  destruct (update_changelog_run nv vt w1) as (new & _ & Hu). rewrite Hu in H.
  injection H as <-.
  destruct (bump_reread_lemma _ _ _ _ Hb) as (c & c' & cur & t & _ & _ & _ & Hp' & Hs' & _).
  pose proof (bump_version_frame vt w) as [_ Hcmd]. pose proof (bump_version_git vt w) as Hg.
  rewrite Hb in Hcmd, Hg. simpl in Hcmd, Hg.
  exists p, vt, nv, c'. split; [reflexivity|]. split; [apply existsb_version_types; exact E|].
  split; [|split; [exact Hp'|exact Hs']].
  simpl. rewrite Hcmd, Hg, <- !app_assoc. reflexivity.
Qed.

(** X19: when [main] exits or raises, it has run no command and left [CHANGELOG.md] as it was. *)
Theorem main_failure_no_commit (argv : list string) (w : World) :
  match main argv w with
  | (Ret _, _) => True
  | (_, w') => commands w' = commands w /\ changelog_md w' = changelog_md w
  end.
Proof.
  unfold main. destruct argv as [|p [|vt [|]]]; try (simpl; auto; fail).
  destruct (existsb (String.eqb vt) ["major"; "minor"; "patch"]); [|simpl; auto].
  pose proof (bump_version_frame vt w) as [Hc Hcmd].
  destruct (bump_version vt w) as [[nv|c|e] w1] eqn:Hb; simpl in Hc, Hcmd.
  - destruct (update_changelog_run nv vt w1) as (new & _ & ->). exact I.
  - auto.
  - auto.
Qed.



Lemma bump_version_reread_witness :
  bump_version "minor" sample_world = (Ret "0.10.0", sample_bumped) /\
  exists content content' cur t,
    pyproject_toml sample_world = Some content /\ search lit_pyproject content = Some cur /\
    parse_version cur = Some t /\
    pyproject_toml sample_bumped = Some content' /\ search lit_pyproject content' = Some "0.10.0" /\
    parse_version "0.10.0" = Some (bump_triple "minor" t).
Proof.
  assert (H : bump_version "minor" sample_world = (Ret "0.10.0", sample_bumped))
    by (vm_compute; reflexivity).
  split; [exact H|exact (bump_version_reread "minor" sample_world sample_bumped "0.10.0" H)].
Defined.

Lemma bump_version_all_entries_witness :
  bump_version "minor" sample_world = (Ret "0.10.0", sample_bumped) /\
  pyproject_toml sample_world = Some sample_pyproject /\
  exists content',
    pyproject_toml sample_bumped = Some content' /\
    findall lit_pyproject content' = map (fun _ => "0.10.0") (findall lit_pyproject sample_pyproject).
Proof.
  assert (H : bump_version "minor" sample_world = (Ret "0.10.0", sample_bumped))
    by (vm_compute; reflexivity).
  assert (Hc : pyproject_toml sample_world = Some sample_pyproject) by reflexivity.
  split; [exact H|]. split; [exact Hc|].
  exact (bump_version_all_entries "minor" sample_world sample_bumped "0.10.0" sample_pyproject H Hc).
Defined.


Lemma bump_version_twice_witness :
  bump_version "minor" sample_world = (Ret "0.10.0", sample_bumped) /\
  parse_version "0.10.0" = Some (0, 10, 0)%N /\
  exists w2, bump_version "patch" sample_bumped = (Ret (format_version (bump_triple "patch" (0, 10, 0)%N)), w2).
Proof.
  assert (H : bump_version "minor" sample_world = (Ret "0.10.0", sample_bumped))
    by (vm_compute; reflexivity).
  assert (Ht : parse_version "0.10.0" = Some (0, 10, 0)%N) by (vm_compute; reflexivity).
  split; [exact H|]. split; [exact Ht|].
  exact (bump_version_twice "minor" "patch" sample_world sample_bumped "0.10.0" (0, 10, 0)%N H Ht).
Defined.


Lemma bump_version_exit_witness :
  pyproject_toml unversioned_world = Some ("[project]" ++ nl ++ "name = " ++ q ++ "uhooapi" ++ q ++ nl) /\
  (fst (bump_version "patch" unversioned_world) = Exit 1%Z <->
   findall lit_pyproject ("[project]" ++ nl ++ "name = " ++ q ++ "uhooapi" ++ q ++ nl) = []).
Proof.
  assert (Hc : pyproject_toml unversioned_world =
                 Some ("[project]" ++ nl ++ "name = " ++ q ++ "uhooapi" ++ q ++ nl)) by reflexivity.
  split; [exact Hc|exact (bump_version_exit "patch" unversioned_world _ Hc)].
Defined.


Lemma bump_version_value_error_witness :
  pyproject_toml two_part_world = Some (lit_pyproject ++ "1.2" ++ q ++ nl) /\
  search lit_pyproject (lit_pyproject ++ "1.2" ++ q ++ nl) = Some "1.2" /\
  (fst (bump_version "patch" two_part_world) = Raise ValueError <->
   ~ exists a b c, "1.2" = a ++ "." ++ b ++ "." ++ c /\
       a <> EmptyString /\ b <> EmptyString /\ c <> EmptyString /\
       all_chars is_digit (a ++ b ++ c) = true).
Proof.
  assert (Hc : pyproject_toml two_part_world = Some (lit_pyproject ++ "1.2" ++ q ++ nl)) by reflexivity.
  assert (Hs : search lit_pyproject (lit_pyproject ++ "1.2" ++ q ++ nl) = Some "1.2")
    by (vm_compute; reflexivity).
  split; [exact Hc|]. split; [exact Hs|].
  exact (bump_version_value_error "patch" two_part_world _ _ Hc Hs).
Defined.



Lemma main_usage_witness :
  (~ exists p vt, ["bump_version.py"; "build"] = [p; vt] /\ In vt ["major"; "minor"; "patch"]) /\
  main ["bump_version.py"; "build"] sample_world = (Exit 1%Z, print sample_world usage).
Proof.
  assert (Hbad : ~ exists p vt, ["bump_version.py"; "build"] = [p; vt] /\
                                In vt ["major"; "minor"; "patch"]).
  { intros (p & vt & Heq & Hin). injection Heq as <- <-. simpl in Hin.
    destruct Hin as [Hin|[Hin|[Hin|[]]]]; discriminate. }
  split; [exact Hbad|exact (main_usage _ sample_world Hbad)].
Defined.


Lemma main_success_witness :
  main ["bump_version.py"; "minor"] sample_world = (Ret tt, sample_released) /\
  exists p vt nv content',
    ["bump_version.py"; "minor"] = [p; vt] /\ In vt ["major"; "minor"; "patch"] /\
    commands sample_released =
      (commands sample_world ++ [describe_cmd; log_cmd (py_strip (git_out sample_world describe_cmd));
                                 add_cmd; commit_cmd nv])%list /\
    pyproject_toml sample_released = Some content' /\ search lit_pyproject content' = Some nv.
Proof.
  assert (H : main ["bump_version.py"; "minor"] sample_world = (Ret tt, sample_released))
    by (vm_compute; reflexivity).
  split; [exact H|exact (main_success _ sample_world sample_released H)].
Defined.
